(** * logger: the level-filtered, cached/queued terminal logger

    A shallow embedding of [logger_stdout.go].  Go strings are byte strings
    and are modelled by [string]; [int] values that the code compares or
    subtracts are [Z]; slices are headers over a shared store of backing
    arrays, because [flush] keeps a slice that aliases the live cache. *)

From Stdlib Require Import ZArith Ascii String Lia Bool.
From stdpp Require Import base option list strings gmap.

Local Open Scope Z_scope.

(* stdpp blocks [simpl] on string append; the proofs below compute with it. *)
#[local] Arguments String.append !_ _ : simpl nomatch.

(** ** Byte strings *)

Module GoString.

(** [len(s)] *)
Definition len (s : string) : Z := Z.of_nat (String.length s).

(** [s[lo:hi]]; out-of-range bounds panic, which is [None] here. *)
Definition substr (s : string) (lo hi : Z) : option string :=
  if (0 <=? lo) && (lo <=? hi) && (hi <=? len s)
  then Some (String.substring (Z.to_nat lo) (Z.to_nat (hi - lo)) s)
  else None.

(** [s[i]] *)
Definition at_ (s : string) (i : Z) : option ascii :=
  if i <? 0 then None else String.get (Z.to_nat i) s.

(** [strings.Repeat(s, n)] for [n >= 0] *)
Fixpoint Repeat (s : string) (n : nat) : string :=
  match n with
  | O => ""
  | S n' => s +:+ Repeat s n'
  end.

(** [strings.Join(l, "")] *)
Fixpoint Join (l : list string) : string :=
  match l with
  | [] => ""
  | s :: l' => s +:+ Join l'
  end.

Definition ESC : string := String "027"%char "".
Definition LF : string := String "010"%char "".

End GoString.

Import GoString.

(** [l[i]] on a Go slice literal: an index outside [0, len) panics. *)
Definition index {A} (l : list A) (i : Z) : option A :=
  if i <? 0 then None else l !! Z.to_nat i.

(** ** Levels and the lookup tables *)

Definition LogType := Z.

Definition DEBUG : LogType := 0.
Definition INFO : LogType := 1.
Definition NOTICE : LogType := 2.
Definition WARN : LogType := 3.
Definition ERROR : LogType := 4.
Definition CRITICAL : LogType := 5.
Definition FATAL : LogType := 6.

(** [syncStatus] is an [int].  Its three constants close the const block
    that opens with the seven levels, so [iota] has reached 7 at
    [statusInit]; a logger that never ran a flush holds the zero value 0,
    which is none of the three. *)
Definition syncStatus := Z.

Definition statusInit : syncStatus := 7.
Definition statusDoing : syncStatus := 8.
Definition statusDone : syncStatus := 9.

Global Instance syncStatus_eq_dec : EqDecision syncStatus := Z.eq_dec.

(** [dataColor]: a Go map; a missing key reads as the zero value [""]. *)
Definition dataColor : gmap string string :=
  <["r" := "41;97"]> (<["g" := "42;97"]> (<["y" := "43;97"]> (<["b" := "44;97"]> ∅))).

Definition dataColor_get (k : string) : string := default "" (dataColor !! k).

Definition types : list string :=
  ["DEBUG"; "INFO"; "NOTICE"; "WARN"; "ERROR"; "CRITICAL"; "FATAL"].

(** First loop of the [logTypeStrings] initialiser. *)
Definition maxTypeLen : Z :=
  fold_left (fun m t => if m <? len t then len t else m) types 0.

(** Second loop: every shorter name gets [maxTypeLen - typeLen] spaces. *)
Definition logTypeStrings : list string :=
  map (fun t => if len t <? maxTypeLen
                then t +:+ Repeat " " (Z.to_nat (maxTypeLen - len t))
                else t) types.

Definition logTypesColors : list string :=
  ["45;97"; "42;97"; "43;97"; "43;97"; "41;97"; "41;97"; "41;97"].

Definition GetLogTypeString (t : LogType) : option string := index logTypeStrings t.

(** ** fmt.Sprintf, on the fragment the logger uses

    All operands are strings.  The template may hold literal bytes, [%s] and
    [%%]; every [%s] needs an operand and no operand may be left over.  Any
    other directive, and an operand count that does not match, is outside
    the fragment and yields [None]. *)
Fixpoint Sprintf (format : string) (a : list string) : option string :=
  match format with
  | EmptyString => match a with [] => Some "" | _ :: _ => None end
  | String "%" (String "s" rest) =>
      match a with
      | v :: a' => (fun r => v +:+ r) <$> Sprintf rest a'
      | [] => None
      end
  | String "%" (String "%" rest) => String "%" <$> Sprintf rest a
  | String "%" _ => None
  | String c rest => String c <$> Sprintf rest a
  end.

(** ** The default format pipeline *)

(** What an emission call may carry in its [interface{}] argument. *)
Inductive payload :=
| PString (iStr : string)          (* i.(string) succeeds *)
| PStrings (iSli : list string)    (* i.([]string) succeeds *)
| POther (dynType : string).       (* any other dynamic type, nil included *)

Definition layout : string := "2006/01/02 - 15:04:05.0000".

(** Lines 267-276.  [clock] is what [time.Now().Format(layout)] returned. *)
Definition formatTime (clock : string) : option string :=
  if len clock =? len layout then Some clock
  else
    let formatTime := if len clock =? 21 then clock +:+ "." else clock in
    pad ← substr ".000" (4 - (len layout - len formatTime)) 4;
    Some (formatTime +:+ pad).

(** Body of the loop over [iSli]: the template piece written to the builder
    and the value stored in [values[j+2]]. *)
Definition field (s : string) : string * string :=
  let ls := len s in
  if 2 <=? ls then
    match substr s (ls - 2) ls with
    | Some color =>
        match at_ color 0, at_ color 1 with
        | Some c0, Some c1 =>
            if Ascii.eqb c0 "-" &&
               (Ascii.eqb c1 "g" || Ascii.eqb c1 "b" || Ascii.eqb c1 "r" || Ascii.eqb c1 "y")
            then (ESC +:+ "[" +:+ dataColor_get (String c1 "") +:+ "m%s" +:+ ESC +:+ "[0m | ",
                  default "" (substr s 0 (ls - 2)))
            else ("%s | ", s)
        | _, _ => ("%s | ", s)
        end
    | None => ("%s | ", s)
    end
  else ("%s | ", s).

Fixpoint fields (iSli : list string) : string * list string :=
  match iSli with
  | [] => ("", [])
  | s :: rest =>
      let '(piece, tj) := field s in
      let '(b, values) := fields rest in
      (piece +:+ b, tj :: values)
  end.

(** [FormatFunc]: template, values and the emit flag; [None] is a panic. *)
Definition FormatFunc : Type :=
  string -> LogType -> payload -> option (string * list string * bool).

Definition DefaultLogFormatFunc : FormatFunc := fun clock logType i =>
  formatTime ← formatTime clock;
  match i with
  | PStrings iSli =>
      color ← index logTypesColors logType;
      name ← index logTypeStrings logType;
      let '(b, values) := fields iSli in
      Some (("[" +:+ ESC +:+ "[") +:+ color +:+ ("m%s" +:+ ESC +:+ "[0m] %s | ") +:+ b +:+ LF,
            name :: formatTime :: values, true)
  | PString iStr =>
      color ← index logTypesColors logType;
      name ← index logTypeStrings logType;
      Some (("[" +:+ ESC +:+ "[") +:+ color +:+ ("m%s" +:+ ESC +:+ "[0m] %s | %s | " +:+ LF),
            [name; formatTime; iStr], true)
  | POther _ => Some ("", [], true)
  end.

(** ** Slices over a store of backing arrays

    A Go slice is a header (array, length, capacity).  The only slicing
    expression of the program is [data[0:0]], so a header always starts at
    the base of its array and no offset is kept. *)

Record slice := { ptr : nat; slen : nat; scap : nat }.

Definition store := list (list string).

Definition elems (h : store) (s : slice) : list string :=
  take (slen s) (default [] (h !! ptr s)).

(** [make([]string, 0, c)] *)
Definition make (h : store) (c : nat) : store * slice :=
  (h ++ [replicate c ""], {| ptr := length h; slen := 0; scap := c |}).

(** Growth rule of [append] when the array is full (the run-time's rule
    before it rounds to an allocation size; only [growcap c > c] matters
    to what is proved below). *)
Definition growcap (c : nat) : nat :=
  if (c =? 0)%nat then 1%nat
  else if (c <? 256)%nat then (2 * c)%nat
  else (c + (c + 768) / 4)%nat.

(** [append(s, x)]: writes in place while there is room, so every header
    over the same array sees the write; otherwise copies to a new array. *)
Definition append (h : store) (s : slice) (x : string) : store * slice :=
  if (slen s <? scap s)%nat then
    (match h !! ptr s with
     | Some arr => <[ptr s := <[slen s := x]> arr]> h
     | None => h
     end,
     {| ptr := ptr s; slen := S (slen s); scap := scap s |})
  else
    let c := growcap (scap s) in
    (h ++ [elems h s ++ x :: replicate (c - S (slen s)) ""],
     {| ptr := length h; slen := S (slen s); scap := c |}).

(** [s[0:0]]: same array, same capacity, length 0. *)
Definition reslice0 (s : slice) : slice :=
  {| ptr := ptr s; slen := 0; scap := scap s |}.

(** ** The sink

    [io.Writer] is supplied from outside: it takes bytes and reports an
    error or not.  [faults] scripts the errors of the coming calls (none
    once the script is used up); [written] records every call. *)

Record Writer := { written : list (string * bool); faults : list bool }.

(** [io.WriteString(w, msg)]; the flag is [err != nil]. *)
Definition WriteString (w : Writer) (msg : string) : Writer * bool :=
  let err := hd false (faults w) in
  ({| written := written w ++ [(msg, err)]; faults := tl (faults w) |}, err).

(** Bytes that reached the sink: the calls that reported no error. *)
Definition delivered (w : Writer) : list string :=
  fst <$> filter (fun a => snd a = false) (written w).

(** ** The logger object *)

Record Logger := {
  out : Writer;
  logFormatFunc : FormatFunc;
  logLevel : LogType;
  status : syncStatus;
  queue : option (list string);      (* [None]: the nil channel before Start *)
  queueSize : Z;
  cache_use : bool;
  cache_data : slice;
  cache_cacheCap : Z;
  cache_duration : Z;
  heap : store                       (* the arrays the slice headers point into *)
}.

Definition set_out (w : Writer) (l : Logger) : Logger :=
  {| out := w; logFormatFunc := logFormatFunc l; logLevel := logLevel l;
     status := status l; queue := queue l; queueSize := queueSize l;
     cache_use := cache_use l; cache_data := cache_data l;
     cache_cacheCap := cache_cacheCap l; cache_duration := cache_duration l;
     heap := heap l |}.

Definition set_status (st : syncStatus) (l : Logger) : Logger :=
  {| out := out l; logFormatFunc := logFormatFunc l; logLevel := logLevel l;
     status := st; queue := queue l; queueSize := queueSize l;
     cache_use := cache_use l; cache_data := cache_data l;
     cache_cacheCap := cache_cacheCap l; cache_duration := cache_duration l;
     heap := heap l |}.

Definition set_queue (q : option (list string)) (l : Logger) : Logger :=
  {| out := out l; logFormatFunc := logFormatFunc l; logLevel := logLevel l;
     status := status l; queue := q; queueSize := queueSize l;
     cache_use := cache_use l; cache_data := cache_data l;
     cache_cacheCap := cache_cacheCap l; cache_duration := cache_duration l;
     heap := heap l |}.

Definition set_cache_data (h : store) (d : slice) (l : Logger) : Logger :=
  {| out := out l; logFormatFunc := logFormatFunc l; logLevel := logLevel l;
     status := status l; queue := queue l; queueSize := queueSize l;
     cache_use := cache_use l; cache_data := d;
     cache_cacheCap := cache_cacheCap l; cache_duration := cache_duration l;
     heap := h |}.

Definition SetCacheSwitch (use : bool) (l : Logger) : Logger :=
  {| out := out l; logFormatFunc := logFormatFunc l; logLevel := logLevel l;
     status := status l; queue := queue l; queueSize := queueSize l;
     cache_use := use; cache_data := cache_data l;
     cache_cacheCap := cache_cacheCap l; cache_duration := cache_duration l;
     heap := heap l |}.

Definition SetLogLevel (logType : LogType) (l : Logger) : Logger :=
  {| out := out l; logFormatFunc := logFormatFunc l; logLevel := logType;
     status := status l; queue := queue l; queueSize := queueSize l;
     cache_use := cache_use l; cache_data := cache_data l;
     cache_cacheCap := cache_cacheCap l; cache_duration := cache_duration l;
     heap := heap l |}.

Definition SetLoggerFormat (f : FormatFunc) (l : Logger) : Logger :=
  {| out := out l; logFormatFunc := f; logLevel := logLevel l;
     status := status l; queue := queue l; queueSize := queueSize l;
     cache_use := cache_use l; cache_data := cache_data l;
     cache_cacheCap := cache_cacheCap l; cache_duration := cache_duration l;
     heap := heap l |}.


(** [NewLogger()], writing to the sink [w]. *)
Definition NewLogger (w : Writer) : Logger :=
  let '(h, d) := make [] 128 in
  {| out := w; logFormatFunc := DefaultLogFormatFunc; logLevel := DEBUG;
     status := 0; queue := None; queueSize := 100000;
     cache_use := true; cache_data := d;
     cache_cacheCap := 128; cache_duration := 100;
     heap := h |}.

(** How a call ends.  [Panics] keeps the state at the panic; [Blocks] is a
    channel operation that cannot proceed now; [Unmodelled] is a template
    outside the [Sprintf] fragment. *)
Inductive outcome (A : Type) :=
| Returns (a : A)
| Panics (a : A)
| Blocks
| Unmodelled.
Arguments Returns {A} a.
Arguments Panics {A} a.
Arguments Blocks {A}.
Arguments Unmodelled {A}.

(** [l.log(logType, i)], run under [l.mu] from entry to return.  The send
    [l.queue <- ...] cannot proceed while the channel is nil or full; a
    channel of capacity 0 hands over only to a receiver that is waiting,
    which this call-by-call reading also shows as [Blocks]. *)
Definition log (l : Logger) (clock : string) (logType : LogType) (i : payload)
  : outcome Logger :=
  if logType <? logLevel l then Returns l
  else
    match logFormatFunc l clock logType i with
    | None => Panics l
    | Some (format, data, isLog) =>
        if negb isLog then Returns l
        else
          match Sprintf format data with
          | None => Unmodelled
          | Some entry =>
              if cache_use l then
                let '(h, d) := append (heap l) (cache_data l) entry in
                Returns (set_cache_data h d l)
              else
                match queue l with
                | Some q =>
                    if Z.of_nat (length q) <? queueSize l
                    then Returns (set_queue (Some (q ++ [entry])) l)
                    else Blocks
                | None => Blocks
                end
          end
    end.

Definition Debug l clock i := log l clock DEBUG i.
Definition Info l clock i := log l clock INFO i.
Definition Notice l clock i := log l clock NOTICE i.
Definition Warn l clock i := log l clock WARN i.
Definition Error l clock i := log l clock ERROR i.
Definition Critical l clock i := log l clock CRITICAL i.
Definition Fatal l clock i := log l clock FATAL i.

(** ** flush, cut at its status write and around its critical section *)

(** [l.status = statusDoing] *)
Definition flush_enter (l : Logger) : Logger := set_status statusDoing l.

(** The section under [l.cache.mutex]: the local [cache] and the logger
    after [l.cache.data = l.cache.data[0:0]]. *)
Definition flush_swap (l : Logger) : slice * Logger :=
  (cache_data l, set_cache_data (heap l) (reslice0 (cache_data l)) l).

(** From the length test to the return; the deferred [l.status = statusDone]
    also runs when the second write panics. *)
Definition flush_write (l : Logger) (cache : slice) : outcome Logger :=
  if (slen cache =? 0)%nat then Returns (set_status statusDone l)
  else
    let '(w1, err) := WriteString (out l) (Join (elems (heap l) cache)) in
    if err then
      let '(w2, err2) := WriteString w1 (Join (elems (heap l) cache)) in
      if err2 then Panics (set_status statusDone (set_out w2 l))
      else Returns (set_status statusDone (set_out w2 l))
    else Returns (set_status statusDone (set_out w1 l)).

(** The same stretch cut at the retry, for a goroutine that other
    goroutines interleave with: up to the end of the first write.  [inl]:
    nothing to write or the write went through, [flush] returns; [inr]: the
    write failed and the retry is next. *)
Definition flush_first (l : Logger) (cache : slice) : Logger + Logger :=
  if (slen cache =? 0)%nat then inl (set_status statusDone l)
  else
    let '(w1, err) := WriteString (out l) (Join (elems (heap l) cache)) in
    if err then inr (set_out w1 l)
    else inl (set_status statusDone (set_out w1 l)).

(** The retry: [strings.Join(cache, "")] is evaluated again, on the store as
    it is by then. *)
Definition flush_retry (l : Logger) (cache : slice) : outcome Logger :=
  let '(w2, err2) := WriteString (out l) (Join (elems (heap l) cache)) in
  if err2 then Panics (set_status statusDone (set_out w2 l))
  else Returns (set_status statusDone (set_out w2 l)).

(** [l.flush()] run without interruption. *)
Definition flush (l : Logger) : outcome Logger :=
  let '(cache, l') := flush_swap (flush_enter l) in
  flush_write l' cache.

(** One round of the drain worker's loop: receive, write, retry once. *)
Definition drain (l : Logger) : outcome Logger :=
  match queue l with
  | Some (msg :: q) =>
      let l := set_queue (Some q) l in
      let '(w1, err) := WriteString (out l) msg in
      if err then
        let '(w2, err2) := WriteString w1 msg in
        if err2 then Panics (set_out w2 l) else Returns (set_out w2 l)
      else Returns (set_out w1 l)
  | _ => Blocks
  end.

(** ** The running process: goroutines and their interleavings *)

(** Where a [go l.flush()] goroutine stands. *)
Inductive flushTask :=
| AtEntry                    (* spawned, no statement executed yet *)
| AtLock                     (* status set, about to take l.cache.mutex *)
| AtWrite (cache : slice)    (* buffer swapped, mutex released *)
| AtRetry (cache : slice).   (* first write failed, retry next *)

Record System := {
  lg : Logger;
  drainers : nat;              (* drain workers spawned by Start *)
  schedulers : nat;            (* ticker loops spawned by Start *)
  flushes : list flushTask;    (* flush goroutines in flight, oldest first *)
  crashed : bool               (* an unrecovered panic ended the process *)
}.

Definition with_lg (l : Logger) (s : System) : System :=
  {| lg := l; drainers := drainers s; schedulers := schedulers s;
     flushes := flushes s; crashed := crashed s |}.

Definition with_flushes (fs : list flushTask) (s : System) : System :=
  {| lg := lg s; drainers := drainers s; schedulers := schedulers s;
     flushes := fs; crashed := crashed s |}.

Definition crash (s : System) : System :=
  {| lg := lg s; drainers := drainers s; schedulers := schedulers s;
     flushes := flushes s; crashed := true |}.

(** A process that has built its logger and not started it. *)
Definition boot (l : Logger) : System :=
  {| lg := l; drainers := 0; schedulers := 0; flushes := []; crashed := false |}.

(** A product of [time.Duration]s is an [int64] and wraps around. *)
Definition int64 (z : Z) : Z := (z + 2 ^ 63) mod 2 ^ 64 - 2 ^ 63.

(** [time.Millisecond], in nanoseconds. *)
Definition Millisecond : Z := 1000000.

(** [make(chan string, n)] panics ("size out of range") for [n < 0] and for
    a buffer beyond what the run-time can allocate.  That bound is the
    run-time's, not the repository's: on a 64-bit platform the buffer of
    [n] string headers of 16 bytes and the channel header of 96 bytes must
    fit in [2^48] bytes. *)
Definition makechan_max : Z := (2 ^ 48 - 96) / 16.

(** [l.Start()].  [make(chan string, l.queueSize)] panics outside
    [0 .. makechan_max]; [time.NewTicker(d)] panics for [d <= 0], where [d]
    is the wrapped product [time.Millisecond * l.cache.duration]. *)
Definition Start (s : System) : System :=
  if negb (cache_use (lg s)) then
    if (queueSize (lg s) <? 0) || (makechan_max <? queueSize (lg s)) then crash s
    else {| lg := set_queue (Some []) (lg s); drainers := S (drainers s);
            schedulers := schedulers s; flushes := flushes s;
            crashed := crashed s |}
  else
    if int64 (Millisecond * cache_duration (lg s)) <=? 0 then crash s
    else {| lg := lg s; drainers := drainers s;
            schedulers := S (schedulers s); flushes := flushes s;
            crashed := crashed s |}.

(** Body of the scheduler's [case <-timer.C]. *)
Definition tick (s : System) : System :=
  if decide (status (lg s) ≠ statusDoing)
  then with_flushes (flushes s ++ [AtEntry]) s
  else s.

(** One step of the [k]-th flush goroutine. *)
Definition flush_step (s : System) (k : nat) : option System :=
  match flushes s !! k with
  | None => None
  | Some AtEntry =>
      Some (with_flushes (<[k := AtLock]> (flushes s)) (with_lg (flush_enter (lg s)) s))
  | Some AtLock =>
      let '(cache, l) := flush_swap (lg s) in
      Some (with_flushes (<[k := AtWrite cache]> (flushes s)) (with_lg l s))
  | Some (AtWrite cache) =>
      match flush_first (lg s) cache with
      | inl l => Some (with_flushes (delete k (flushes s)) (with_lg l s))
      | inr l => Some (with_flushes (<[k := AtRetry cache]> (flushes s)) (with_lg l s))
      end
  | Some (AtRetry cache) =>
      match flush_retry (lg s) cache with
      | Returns l => Some (with_flushes (delete k (flushes s)) (with_lg l s))
      | Panics l => Some (crash (with_flushes (delete k (flushes s)) (with_lg l s)))
      | _ => None
      end
  end.

Inductive event :=
| Tick                                                  (* the ticker fires *)
| FlushStep (k : nat)                                   (* a flush goroutine runs on *)
| Emit (clock : string) (logType : LogType) (i : payload)  (* an emission call *)
| Drain.                                                (* the drain worker runs on *)

(** One scheduling step; [None] when the event cannot happen in [s]. *)
Definition step (s : System) (e : event) : option System :=
  if crashed s then None
  else
    match e with
    | Tick => if (0 <? schedulers s)%nat then Some (tick s) else None
    | FlushStep k => flush_step s k
    | Emit clock logType i =>
        match log (lg s) clock logType i with
        | Returns l => Some (with_lg l s)
        | Panics l => Some (crash (with_lg l s))
        | _ => None
        end
    | Drain =>
        if (0 <? drainers s)%nat then
          match drain (lg s) with
          | Returns l => Some (with_lg l s)
          | Panics l => Some (crash (with_lg l s))
          | _ => None
          end
        else None
    end.

Fixpoint run (s : System) (es : list event) : option System :=
  match es with
  | [] => Some s
  | e :: es' => s' ← step s e; run s' es'
  end.

(** The formatted strings that a schedule's emission calls hand to the
    delivery core, in call order. *)
Fixpoint emitted (s : System) (es : list event) : list string :=
  match es with
  | [] => []
  | e :: es' =>
      match step s e with
      | None => []
      | Some s' =>
          match e with
          | Emit clock logType i =>
              if logType <? logLevel (lg s) then emitted s' es'
              else
                match logFormatFunc (lg s) clock logType i with
                | Some (format, data, true) =>
                    match Sprintf format data with
                    | Some entry => entry :: emitted s' es'
                    | None => emitted s' es'
                    end
                | _ => emitted s' es'
                end
          | _ => emitted s' es'
          end
      end
  end.

(** Flush goroutines that have set [statusDoing] and not yet returned. *)
Definition in_progress (t : flushTask) : bool :=
  match t with AtEntry => false | _ => true end.

(** What one field contributes to the record once [Sprintf] has filled its
    piece of the template with its value. *)
Definition segment (s : string) : string :=
  let '(piece, tj) := field s in default "" (Sprintf piece [tj]).

(** The part of a record before the payload. *)
Definition header (color name ts : string) : string :=
  "[" +:+ ESC +:+ "[" +:+ color +:+ "m" +:+ name +:+ ESC +:+ "[0m] " +:+ ts +:+ " | ".

(** The coloured template piece of a field. *)
Definition colored (code : string) : string :=
  ESC +:+ "[" +:+ code +:+ "m%s" +:+ ESC +:+ "[0m | ".

(** A header fits the store: its array exists, has the header's capacity,
    and the length does not exceed it. *)
Definition wf_slice (h : store) (s : slice) : bool :=
  match h !! ptr s with
  | Some arr => (length arr =? scap s)%nat && (slen s <=? scap s)%nat
  | None => false
  end.

(** Entries handed to the delivery core and not yet taken by a flush or by
    the drain worker. *)
Definition pending (l : Logger) : list string :=
  if cache_use l then elems (heap l) (cache_data l) else default [] (queue l).

(** The cache header points at an array of its capacity. *)
Definition wf (l : Logger) : bool := wf_slice (heap l) (cache_data l).

(** The enqueue of [log] can proceed: always in cache mode, in queue mode
    when the channel exists and is not full. *)
Definition has_room (l : Logger) : bool :=
  cache_use l ||
  match queue l with
  | Some q => Z.of_nat (length q) <? queueSize l
  | None => false
  end.

(** [n] rounds of the drain worker's [for] loop, stopping at the first
    round that does not return. *)
Fixpoint drain_rounds (n : nat) (l : Logger) : outcome Logger :=
  match n with
  | O => Returns l
  | S n' =>
      match drain l with
      | Returns l' => drain_rounds n' l'
      | o => o
      end
  end.

(** Schedules made of emission calls only. *)
Definition is_emit (e : event) : bool :=
  match e with Emit _ _ _ => true | _ => false end.

(** What one emission call hands to the delivery core: its entry, or
    nothing when the level is below the threshold, the pipeline vetoes or
    panics, or the template is outside the fragment. *)
Definition accepted (l : Logger) (clock : string) (logType : LogType) (i : payload)
  : list string :=
  if logType <? logLevel l then []
  else
    match logFormatFunc l clock logType i with
    | Some (format, data, true) =>
        match Sprintf format data with
        | Some entry => [entry]
        | None => []
        end
    | _ => []
    end.

(** [l.SetCacheCap(cap)]: stores the number and nothing else. *)
Definition SetCacheCap (cap : Z) (l : Logger) : Logger :=
  {| out := out l; logFormatFunc := logFormatFunc l; logLevel := logLevel l;
     status := status l; queue := queue l; queueSize := queueSize l;
     cache_use := cache_use l; cache_data := cache_data l;
     cache_cacheCap := cap; cache_duration := cache_duration l;
     heap := heap l |}.

(** The same change applied to the logger a call ends with. *)
Definition outcome_map (f : Logger -> Logger) (o : outcome Logger) : outcome Logger :=
  match o with
  | Returns l => Returns (f l)
  | Panics l => Panics (f l)
  | Blocks => Blocks
  | Unmodelled => Unmodelled
  end.

(** ** Inputs used in the examples *)

Definition stdout0 : Writer := {| written := []; faults := [] |}.

Definition clock0 : string := "2024/05/06 - 07:08:09.1234".

(** A logger that holds one entry in its cache and one message in its
    queue, on a sink whose next two writes fail. *)
Definition two_faults : Logger :=
  let l := NewLogger {| written := []; faults := [true; true] |} in
  let '(h, d) := append (heap l) (cache_data l) "entry" in
  set_queue (Some ["msg"]) (set_cache_data h d l).

(** A new logger after one accepted text entry. *)
Definition one_entry : Logger :=
  let l := NewLogger stdout0 in
  let '(h, d) := append (heap l) (cache_data l) "entry" in
  set_cache_data h d l.

(** The schedule of C5: one entry, a flush up to the buffer swap, a second
    entry, the write of that flush, and a second flush run to its end. *)
Definition swap_then_emit : list event :=
  [Emit clock0 INFO (PString "A");
   Tick; FlushStep 0; FlushStep 0;
   Emit clock0 INFO (PString "B");
   FlushStep 0;
   Tick; FlushStep 0; FlushStep 0; FlushStep 0].

(** A sink whose next write fails and whose later writes succeed. *)
Definition fail_once : Writer := {| written := []; faults := [true] |}.

(** The schedule of C3: one entry, a flush up to its first write, which
    fails, a second entry, and the retry. *)
Definition emit_before_retry : list event :=
  [Emit clock0 INFO (PString "A");
   Tick; FlushStep 0; FlushStep 0; FlushStep 0;
   Emit clock0 INFO (PString "B");
   FlushStep 0].



(** * Facts about byte strings *)

Section StringFacts.

Lemma str_length_app (a b : string) :
  String.length (a +:+ b) = (String.length a + String.length b)%nat.
Proof. induction a as [|c a IH]; simpl; [reflexivity | now rewrite IH]. Qed.

Lemma app_assoc_str (a b c : string) : (a +:+ b) +:+ c = a +:+ b +:+ c.
Proof. induction a as [|x a IH]; simpl; [reflexivity | f_equal; exact IH]. Qed.

Lemma app_nil_r_str (a : string) : a +:+ "" = a.
Proof. induction a as [|x a IH]; simpl; [reflexivity | now rewrite IH]. Qed.

Lemma substring_all (s : string) : String.substring 0 (String.length s) s = s.
Proof. induction s as [|c s IH]; simpl; [reflexivity | now rewrite IH]. Qed.

Lemma substring_app_l (a b : string) :
  String.substring 0 (String.length a) (a +:+ b) = a.
Proof.
  induction a as [|c a IH]; simpl.
  - destruct b; reflexivity.
  - now rewrite IH.
Qed.

Lemma substring_app_r (a b : string) (m : nat) :
  String.substring (String.length a) m (a +:+ b) = String.substring 0 m b.
Proof. induction a as [|c a IH]; simpl; [reflexivity | apply IH]. Qed.

Lemma substring_split (s : string) (n : nat) :
  (n <= String.length s)%nat ->
  s = String.substring 0 n s +:+ String.substring n (String.length s - n) s.
Proof.
  revert n; induction s as [|c s IH]; intros n Hn; simpl in *.
  - destruct n; reflexivity.
  - destruct n as [|n]; simpl.
    + now rewrite substring_all.
    + f_equal. apply IH. lia.
Qed.

Lemma length_substring (s : string) (n m : nat) :
  (n + m <= String.length s)%nat -> String.length (String.substring n m s) = m.
Proof.
  revert n m; induction s as [|c s IH]; intros n m H; simpl in *.
  - destruct n, m; simpl in *; try reflexivity; lia.
  - destruct n as [|n].
    + destruct m as [|m]; simpl; [reflexivity|]. f_equal. apply IH. lia.
    + apply IH. lia.
Qed.

Lemma length_two (s : string) :
  String.length s = 2%nat -> exists c0 c1, s = String c0 (String c1 "").
Proof.
  destruct s as [|c0 [|c1 [|c2 s]]]; simpl; intros H; try discriminate.
  eauto.
Qed.

Lemma Join_app (l k : list string) : Join (l ++ k) = Join l +:+ Join k.
Proof.
  induction l as [|s l IH]; simpl; [reflexivity|].
  rewrite IH. symmetry. apply app_assoc_str.
Qed.

Lemma length_Repeat_space (n : nat) : String.length (Repeat " " n) = n.
Proof. induction n as [|n IH]; simpl; [reflexivity | now rewrite IH]. Qed.

End StringFacts.

(** * Tactics for templates *)

Ltac sprintf_red :=
  cbn [colored ESC LF String.append Sprintf fmap option_fmap option_map
       fst snd default].

Ltac str_norm :=
  repeat first [rewrite !app_assoc_str | progress cbn [String.append]].

(** * The lookup tables *)

Lemma dataColor_keys (c code : string) :
  dataColor !! c = Some code <->
  (c, code) ∈ [("r", "41;97"); ("g", "42;97"); ("y", "43;97"); ("b", "44;97")].
Proof.
  unfold dataColor. split.
  - intros H.
    destruct (decide (c = "r")) as [->|]; [simplify_map_eq; set_solver|].
    destruct (decide (c = "g")) as [->|]; [simplify_map_eq; set_solver|].
    destruct (decide (c = "y")) as [->|]; [simplify_map_eq; set_solver|].
    destruct (decide (c = "b")) as [->|]; [simplify_map_eq; set_solver|].
    simplify_map_eq.
  - intros H. repeat (apply elem_of_cons in H as [H|H]; [injection H as -> ->; by simplify_map_eq|]).
    by apply elem_of_nil in H.
Qed.

Lemma level_cases (t : LogType) :
  0 <= t <= 6 -> t = DEBUG \/ t = INFO \/ t = NOTICE \/ t = WARN \/ t = ERROR \/ t = CRITICAL \/ t = FATAL.
Proof. unfold DEBUG, INFO, NOTICE, WARN, ERROR, CRITICAL, FATAL. lia. Qed.

Lemma maxTypeLen_is_8 : maxTypeLen = 8.
Proof. reflexivity. Qed.

(** Every display name is its raw name followed by spaces, 8 bytes in all. *)
Lemma logTypeStrings_padded (t : LogType) :
  0 <= t <= 6 ->
  exists raw name,
    index types t = Some raw /\ GetLogTypeString t = Some name /\
    name = raw +:+ Repeat " " (Z.to_nat (8 - len raw)) /\ len name = 8.
Proof.
  intros H. destruct (level_cases t H) as [E|[E|[E|[E|[E|[E|E]]]]]]; subst t;
    eexists _, _; repeat split; reflexivity.
Qed.

(** * The template pieces of the fields *)

Lemma dataColor_get_cases (c1 : ascii) :
  Ascii.eqb c1 "g" || Ascii.eqb c1 "b" || Ascii.eqb c1 "r" || Ascii.eqb c1 "y" = true ->
  exists code, dataColor !! String c1 "" = Some code /\
               dataColor_get (String c1 "") = code.
Proof.
  intros H. repeat (apply orb_true_iff in H as [H|H]);
    apply Ascii.eqb_eq in H; subst c1; eexists; split; reflexivity.
Qed.

Lemma field_shape (s : string) :
  field s = ("%s | ", s) \/
  exists body c code,
    s = body +:+ "-" +:+ c /\ dataColor !! c = Some code /\
    field s = (colored code, body).
Proof.
  unfold field, substr, at_.
  destruct (2 <=? len s) eqn:Hls; [|by left].
  apply Z.leb_le in Hls.
  replace ((0 <=? len s - 2) && (len s - 2 <=? len s) && (len s <=? len s))
    with true by (symmetry; rewrite !andb_true_iff, !Z.leb_le; lia).
  replace (Z.to_nat (len s - (len s - 2))) with 2%nat by lia.
  set (color := String.substring _ _ s).
  assert (Hc : String.length color = 2%nat).
  { unfold color. apply length_substring. unfold len in *. lia. }
  destruct (length_two _ Hc) as (c0 & c1 & Hcolor). rewrite Hcolor. simpl.
  destruct (Ascii.eqb c0 "-") eqn:H0; [|by left]. simpl.
  destruct (_ || _) eqn:H1; [|by left].
  right. destruct (dataColor_get_cases c1 H1) as (code & Hk & Hg).
  apply Ascii.eqb_eq in H0. subst c0.
  exists (String.substring 0 (Z.to_nat (len s - 2)) s), (String c1 ""), code.
  split; [|split; [exact Hk|]].
  - rewrite (substring_split s (Z.to_nat (len s - 2))) at 1 by (unfold len in *; lia).
    f_equal. rewrite <- Hcolor. unfold color. f_equal; unfold len in *; lia.
  - rewrite Hg. unfold colored.
    replace ((0 <=? len s - 2) && (len s - 2 <=? len s))
      with true by (symmetry; rewrite !andb_true_iff, !Z.leb_le; lia).
    replace (len s - 2 - 0) with (len s - 2) by lia. reflexivity.
Qed.

(** A field that ends in a recognised suffix has it cut off and its piece
    coloured. *)
Lemma field_colored (body c code : string) :
  dataColor !! c = Some code ->
  field (body +:+ "-" +:+ c) = (colored code, body).
Proof.
  intros Hk.
  assert (Hlen : String.length c = 1%nat).
  { apply dataColor_keys in Hk.
    repeat (apply elem_of_cons in Hk as [Hk|Hk]; [injection Hk as -> ->; reflexivity|]).
    by apply elem_of_nil in Hk. }
  assert (Hall : len (body +:+ "-" +:+ c) = Z.of_nat (String.length body) + 2).
  { unfold len. rewrite !str_length_app, Hlen. simpl. lia. }
  unfold field, substr. rewrite Hall.
  replace (2 <=? _) with true by (symmetry; apply Z.leb_le; lia).
  replace ((0 <=? Z.of_nat (String.length body) + 2 - 2) && _ && _)
    with true by (symmetry; rewrite !andb_true_iff, !Z.leb_le; lia).
  replace (Z.to_nat (Z.of_nat (String.length body) + 2 - 2)) with (String.length body) by lia.
  replace (Z.to_nat (Z.of_nat (String.length body) + 2 - (Z.of_nat (String.length body) + 2 - 2)))
    with 2%nat by lia.
  rewrite substring_app_r.
  replace ((0 <=? 0) && _ && _)
    with true by (symmetry; rewrite !andb_true_iff, !Z.leb_le; lia).
  replace (Z.to_nat (Z.of_nat (String.length body) + 2 - 2 - 0)) with (String.length body) by lia.
  rewrite substring_app_l.
  apply dataColor_keys in Hk.
  repeat (apply elem_of_cons in Hk as [Hk|Hk]; [injection Hk as -> ->; reflexivity|]).
  by apply elem_of_nil in Hk.
Qed.

(** Any other field keeps its text and gets the plain piece. *)
Lemma field_plain (s : string) :
  (forall body c, s = body +:+ "-" +:+ c -> dataColor !! c = None) ->
  field s = ("%s | ", s).
Proof.
  intros Hno. destruct (field_shape s) as [H|(body & c & code & Hs & Hk & _)];
    [exact H|].
  rewrite (Hno _ _ Hs) in Hk. discriminate.
Qed.

(** * Sprintf on the templates of the default pipeline *)

Lemma Sprintf_plain (v b : string) (vals : list string) :
  Sprintf ("%s | " +:+ b) (v :: vals) =
  (fun r => (v +:+ " | ") +:+ r) <$> Sprintf b vals.
Proof.
  sprintf_red. destruct (Sprintf b vals) as [r|]; sprintf_red; [|reflexivity].
  now rewrite app_assoc_str.
Qed.

Lemma Sprintf_colored (code v b : string) (vals : list string) :
  code ∈ ["41;97"; "42;97"; "43;97"; "44;97"] ->
  Sprintf (colored code +:+ b) (v :: vals) =
  (fun r => (ESC +:+ "[" +:+ code +:+ "m" +:+ v +:+ ESC +:+ "[0m | ") +:+ r)
    <$> Sprintf b vals.
Proof.
  intros Hc.
  repeat (apply elem_of_cons in Hc as [->|Hc];
          [sprintf_red; destruct (Sprintf b vals) as [r|]; sprintf_red;
           [|reflexivity]; now rewrite app_assoc_str|]).
  by apply elem_of_nil in Hc.
Qed.

Lemma dataColor_codes (c code : string) :
  dataColor !! c = Some code -> code ∈ ["41;97"; "42;97"; "43;97"; "44;97"].
Proof.
  intros Hk. apply dataColor_keys in Hk.
  repeat (apply elem_of_cons in Hk as [Hk|Hk]; [injection Hk as -> ->; set_solver|]).
  by apply elem_of_nil in Hk.
Qed.

Lemma segment_plain (s : string) :
  field s = ("%s | ", s) -> segment s = s +:+ " | ".
Proof.
  intros H. unfold segment. rewrite H. sprintf_red. reflexivity.
Qed.

Lemma segment_colored (s body code : string) :
  code ∈ ["41;97"; "42;97"; "43;97"; "44;97"] ->
  field s = (colored code, body) ->
  segment s = ESC +:+ "[" +:+ code +:+ "m" +:+ body +:+ ESC +:+ "[0m | ".
Proof.
  intros Hc H. unfold segment. rewrite H.
  rewrite <- (app_nil_r_str (colored code)), (Sprintf_colored _ _ _ _ Hc).
  cbn [Sprintf fmap option_fmap option_map default]. apply app_nil_r_str.
Qed.

(** The pieces and values of all fields, filled in, give the segments in
    order; [tail] is what the template goes on with. *)
Lemma Sprintf_fields (iSli : list string) (tail r : string) :
  Sprintf tail [] = Some r ->
  Sprintf ((fields iSli).1 +:+ tail) (fields iSli).2
  = Some (Join (segment <$> iSli) +:+ r).
Proof.
  intros Hr. induction iSli as [|s rest IH].
  - exact Hr.
  - cbn [fields]. destruct (fields rest) as [b values] eqn:Hrest.
    cbn [fst snd] in IH.
    destruct (field_shape s) as [H|(body & c & code & _ & Hk & H)].
    + rewrite H, fmap_cons, (segment_plain _ H). cbn [fst snd Join].
      rewrite app_assoc_str, Sprintf_plain, IH. cbn [fmap option_fmap option_map].
      now rewrite !app_assoc_str.
    + pose proof (dataColor_codes _ _ Hk) as Hc.
      rewrite H, fmap_cons, (segment_colored _ _ _ Hc H). cbn [fst snd Join].
      rewrite app_assoc_str, (Sprintf_colored _ _ _ _ Hc), IH.
      cbn [fmap option_fmap option_map].
      now rewrite !app_assoc_str.
Qed.

Lemma Sprintf_header (color name ts rest : string) (vals : list string) :
  color ∈ logTypesColors ->
  Sprintf (("[" +:+ ESC +:+ "[") +:+ color +:+ ("m%s" +:+ ESC +:+ "[0m] %s | ") +:+ rest)
          (name :: ts :: vals)
  = (fun r => header color name ts +:+ r) <$> Sprintf rest vals.
Proof.
  intros Hc. unfold logTypesColors, header in *.
  repeat (apply elem_of_cons in Hc as [->|Hc];
          [sprintf_red; destruct (Sprintf rest vals) as [r|]; sprintf_red;
           [|reflexivity]; str_norm; reflexivity|]).
  by apply elem_of_nil in Hc.
Qed.

Lemma level_tables (t : LogType) :
  0 <= t <= 6 ->
  exists color name,
    index logTypesColors t = Some color /\ index logTypeStrings t = Some name /\
    color ∈ logTypesColors.
Proof.
  intros H. destruct (level_cases t H) as [E|[E|[E|[E|[E|[E|E]]]]]]; subst t;
    eexists _, _; (split; [reflexivity|split; [reflexivity|]]);
    unfold logTypesColors;
    repeat first [apply list_elem_of_here | apply list_elem_of_further].
Qed.

(** The default pipeline on a sequence of fields: the filled-in template is
    the header, the segments of the fields in order, and a line feed. *)
Lemma DefaultLogFormatFunc_fields (clock ts : string) (t : LogType) (iSli : list string) :
  0 <= t <= 6 ->
  formatTime clock = Some ts ->
  exists color name format data,
    index logTypesColors t = Some color /\ GetLogTypeString t = Some name /\
    DefaultLogFormatFunc clock t (PStrings iSli) = Some (format, data, true) /\
    Sprintf format data
    = Some (header color name ts +:+ Join (segment <$> iSli) +:+ LF).
Proof.
  intros Ht Hts. destruct (level_tables t Ht) as (color & name & Hc & Hn & Hin).
  exists color, name. unfold DefaultLogFormatFunc, GetLogTypeString.
  rewrite Hts, Hc, Hn. cbn [mbind option_bind].
  pose proof (Sprintf_fields iSli LF LF eq_refl) as Hf.
  destruct (fields iSli) as [b values]. cbn [fst snd] in Hf.
  eexists _, _. split; [reflexivity|]. split; [reflexivity|]. split; [reflexivity|].
  rewrite (Sprintf_header _ _ _ _ _ Hin), Hf. reflexivity.
Qed.

(** The default pipeline on a text payload. *)
Lemma DefaultLogFormatFunc_text (clock ts text : string) (t : LogType) :
  0 <= t <= 6 ->
  formatTime clock = Some ts ->
  exists color name format data,
    index logTypesColors t = Some color /\ GetLogTypeString t = Some name /\
    DefaultLogFormatFunc clock t (PString text) = Some (format, data, true) /\
    Sprintf format data
    = Some (header color name ts +:+ text +:+ " | " +:+ LF).
Proof.
  intros Ht Hts. destruct (level_tables t Ht) as (color & name & Hc & Hn & Hin).
  exists color, name. unfold DefaultLogFormatFunc, GetLogTypeString.
  rewrite Hts, Hc, Hn. cbn [mbind option_bind].
  eexists _, _. split; [reflexivity|]. split; [reflexivity|]. split; [reflexivity|].
  change ("m%s" +:+ ESC +:+ "[0m] %s | %s | " +:+ LF)
    with (("m%s" +:+ ESC +:+ "[0m] %s | ") +:+ "%s | " +:+ LF).
  rewrite (Sprintf_header _ _ _ _ _ Hin), Sprintf_plain.
  sprintf_red. str_norm. reflexivity.
Qed.

(** The default pipeline on any other payload: no index is taken, so every
    level gives the same answer. *)
Lemma DefaultLogFormatFunc_other (clock ts dyn : string) (t : LogType) :
  formatTime clock = Some ts ->
  DefaultLogFormatFunc clock t (POther dyn) = Some ("", [], true).
Proof. intros Hts. unfold DefaultLogFormatFunc. now rewrite Hts. Qed.

(** * Slices and the store *)

Lemma growcap_gt (c : nat) : (c < growcap c)%nat.
Proof.
  unfold growcap. destruct (c =? 0)%nat eqn:H0.
  - apply Nat.eqb_eq in H0. lia.
  - apply Nat.eqb_neq in H0. destruct (c <? 256)%nat; [lia|].
    pose proof (Nat.div_str_pos (c + 768) 4). lia.
Qed.

Lemma wf_slice_inv (h : store) (s : slice) :
  wf_slice h s = true ->
  exists arr, h !! ptr s = Some arr /\ length arr = scap s /\ (slen s <= scap s)%nat.
Proof.
  unfold wf_slice. destruct (h !! ptr s) as [arr|]; [|discriminate].
  intros H. apply andb_true_iff in H as [H1 H2].
  apply Nat.eqb_eq in H1. apply Nat.leb_le in H2. eauto.
Qed.

Lemma append_elems (h : store) (s : slice) (x : string) :
  wf_slice h s = true ->
  elems (append h s x).1 (append h s x).2 = elems h s ++ [x] /\
  wf_slice (append h s x).1 (append h s x).2 = true.
Proof.
  intros Hwf. destruct (wf_slice_inv _ _ Hwf) as (arr & Harr & Hlen & Hle).
  unfold append, elems, wf_slice, store in *.
  destruct (slen s <? scap s)%nat eqn:Hroom; cbn [fst snd ptr slen scap].
  - apply Nat.ltb_lt in Hroom. rewrite Harr.
    pose proof (lookup_lt_Some _ _ _ Harr) as Hptr.
    rewrite list_lookup_insert_eq by exact Hptr. cbn [default from_option id].
    split.
    + rewrite (take_S_r _ _ x), take_insert_ge by (try apply list_lookup_insert_eq; lia).
      reflexivity.
    + rewrite length_insert, Hlen.
      apply andb_true_iff. split; [apply Nat.eqb_eq | apply Nat.leb_le]; lia.
  - apply Nat.ltb_ge in Hroom. assert (slen s = scap s) as Hfull by lia.
    pose proof (growcap_gt (scap s)) as Hg.
    rewrite Harr. cbn [default from_option id].
    rewrite lookup_app_r, Nat.sub_diag by lia. cbn [lookup list_lookup default from_option id].
    assert (Htk : length (take (slen s) arr) = slen s) by (rewrite length_take; lia).
    split.
    + rewrite (cons_middle x), app_assoc.
      apply take_app_length'. rewrite length_app, Htk. cbn [length]. lia.
    + rewrite length_app. cbn [length]. rewrite length_replicate, Htk.
      apply andb_true_iff. split; [apply Nat.eqb_eq | apply Nat.leb_le]; lia.
Qed.

(** * The emission call *)

Lemma log_below (l : Logger) (clock : string) (t : LogType) (i : payload) :
  t < logLevel l -> log l clock t i = Returns l.
Proof.
  intros H. unfold log. apply Z.ltb_lt in H. now rewrite H.
Qed.

Lemma log_accept (l : Logger) (clock : string) (t : LogType) (i : payload)
      (format : string) (data : list string) (entry : string) :
  logLevel l <= t ->
  logFormatFunc l clock t i = Some (format, data, true) ->
  Sprintf format data = Some entry ->
  wf l = true -> has_room l = true ->
  exists l',
    log l clock t i = Returns l' /\
    pending l' = pending l ++ [entry] /\
    out l' = out l /\ wf l' = true /\
    cache_use l' = cache_use l /\ logLevel l' = logLevel l /\
    logFormatFunc l' = logFormatFunc l /\ status l' = status l.
Proof.
  intros Hlv Hf Hs Hwf Hroom. unfold log.
  replace (t <? logLevel l) with false by (symmetry; apply Z.ltb_ge; lia).
  rewrite Hf, Hs. cbn [negb]. unfold pending, wf, has_room in *.
  destruct (cache_use l) eqn:Huse.
  - destruct (append_elems (heap l) (cache_data l) entry Hwf) as [He Hw].
    destruct (append (heap l) (cache_data l) entry) as [h d].
    eexists. split; [reflexivity|]. cbn. rewrite Huse. auto 10.
  - cbn [orb] in Hroom. destruct (queue l) as [q|] eqn:Hq; [|discriminate].
    rewrite Hroom. eexists. split; [reflexivity|]. cbn. rewrite Huse. auto 10.
Qed.

(** * flush and the drain worker *)

(** [flush] is its three parts in a row; the first two leave the store and
    the sink alone. *)
Lemma flush_unfold (l : Logger) :
  flush l =
  flush_write (set_cache_data (heap l) (reslice0 (cache_data l)) (set_status statusDoing l))
              (cache_data l).
Proof. reflexivity. Qed.

Lemma flush_empty (l : Logger) :
  slen (cache_data l) = 0%nat ->
  exists l', flush l = Returns l' /\ out l' = out l /\ heap l' = heap l /\
             cache_data l' = reslice0 (cache_data l) /\ status l' = statusDone.
Proof.
  intros H. rewrite flush_unfold. unfold flush_write. rewrite H.
  eexists. split; [reflexivity|]. auto.
Qed.

(** After a flush that returned, the live cache has length 0. *)
Lemma flush_leaves_empty (l l1 : Logger) :
  flush l = Returns l1 -> slen (cache_data l1) = 0%nat.
Proof.
  rewrite flush_unfold. unfold flush_write, WriteString.
  destruct (slen (cache_data l) =? 0)%nat; [intros [= <-]; reflexivity|].
  cbn. destruct (hd false (faults (out l))); [destruct (hd false _)|];
    intros [= <-]; reflexivity.
Qed.

Lemma flush_nonempty (l : Logger) :
  slen (cache_data l) <> 0%nat ->
  hd false (faults (out l)) = false ->
  exists l', flush l = Returns l' /\
             written (out l') = written (out l) ++ [(Join (elems (heap l) (cache_data l)), false)] /\
             faults (out l') = tl (faults (out l)).
Proof.
  intros Hne Hok. rewrite flush_unfold. unfold flush_write, WriteString.
  apply Nat.eqb_neq in Hne. rewrite Hne. cbn. rewrite Hok.
  eexists. split; [reflexivity|]. split; reflexivity.
Qed.

(** In cache mode a flush of a buffer that holds entries writes them, joined,
    in one call when the sink takes the write. *)
Lemma flush_pending (l : Logger) :
  cache_use l = true -> pending l <> [] ->
  hd false (faults (out l)) = false ->
  exists l', flush l = Returns l' /\
             written (out l') = written (out l) ++ [(Join (pending l), false)].
Proof.
  intros Hc Hne Hok. unfold pending in *. rewrite Hc in *.
  assert (H0 : slen (cache_data l) <> 0%nat).
  { intros H0. apply Hne. unfold elems. now rewrite H0. }
  destruct (flush_nonempty l H0 Hok) as (l' & Hfl & Hw & _). eauto.
Qed.

Lemma app_singleton_not_nil {A} (l : list A) (x : A) : l ++ [x] <> [].
Proof. destruct l; discriminate. Qed.

(** * Timestamps *)

(** A clock rendering of full width is taken as it is. *)
Lemma formatTime_full (clock : string) :
  len clock = 26 -> formatTime clock = Some clock.
Proof. intros H. unfold formatTime. change (len layout) with 26. now rewrite H. Qed.

(** One to three trailing zeros dropped: the missing zeros are put back. *)
Lemma formatTime_pads_zeros (clock : string) :
  23 <= len clock <= 25 ->
  formatTime clock = Some (clock +:+ Repeat "0" (Z.to_nat (26 - len clock))) /\
  (forall ts, formatTime clock = Some ts -> len ts = 26).
Proof.
  intros H.
  assert (len clock = 23 \/ len clock = 24 \/ len clock = 25) as [E|[E|E]] by lia;
    unfold formatTime; change (len layout) with 26; rewrite E;
    cbn [Z.eqb Pos.eqb]; rewrite E; (split; [reflexivity|]);
    intros ts [= <-]; unfold len in *; rewrite str_length_app; cbn; lia.
Qed.

(** The fraction dropped entirely: a point is added and then [".000"]. *)
Lemma formatTime_no_fraction (clock : string) :
  len clock = 21 -> formatTime clock = Some (clock +:+ "..000").
Proof.
  intros H. unfold formatTime. change (len layout) with 26. rewrite H.
  cbn [Z.eqb Pos.eqb].
  replace (len (clock +:+ ".")) with 22
    by (unfold len in *; rewrite str_length_app; cbn; lia).
  change (substr ".000" (4 - (26 - 22)) 4) with (Some ".000").
  cbn [mbind option_bind]. f_equal. apply app_assoc_str.
Qed.

(** * The claims *)

(** C7.  A text payload at any of the seven levels, on a logger that runs
    the default pipeline and whose threshold the level passes, is enqueued
    as [[<LEVEL>] <timestamp> | <text> | \n]: [<LEVEL>] is the display name,
    which is the raw name followed by spaces up to the 8 bytes of
    ["CRITICAL"], between the escape sequence of the level's colour and the
    reset sequence. *)
Theorem text_payload_record
        (l : Logger) (clock ts text : string) (logType : LogType) :
  0 <= logType <= 6 ->
  formatTime clock = Some ts ->
  logFormatFunc l = DefaultLogFormatFunc ->
  logLevel l <= logType ->
  wf l = true -> has_room l = true ->
  exists raw name color l',
    index types logType = Some raw /\
    index logTypesColors logType = Some color /\
    GetLogTypeString logType = Some name /\
    name = raw +:+ Repeat " " (Z.to_nat (len "CRITICAL" - len raw)) /\
    len name = len "CRITICAL" /\
    log l clock logType (PString text) = Returns l' /\
    pending l' = pending l ++
      ["[" +:+ (ESC +:+ "[" +:+ color +:+ "m" +:+ name +:+ ESC +:+ "[0m") +:+ "] "
           +:+ ts +:+ " | " +:+ text +:+ " | " +:+ LF].
Proof.
  intros Ht Hts Hf Hlv Hwf Hroom.
  destruct (logTypeStrings_padded logType Ht) as (raw & name & Hraw & Hname & Hpad & Hlen).
  destruct (DefaultLogFormatFunc_text clock ts text logType Ht Hts)
    as (color & name' & format & data & Hc & Hn & Hdef & Hsp).
  rewrite Hname in Hn. injection Hn as <-.
  rewrite <- Hf in Hdef.
  destruct (log_accept l clock logType (PString text) _ _ _ Hlv Hdef Hsp Hwf Hroom)
    as (l' & Hlog & Hpend & _).
  exists raw, name, color, l'. repeat (split; [assumption|]).
  rewrite Hpend. f_equal. f_equal. unfold header. str_norm. reflexivity.
Qed.

Lemma text_payload_record_witness :
  exists raw name color l',
    index types INFO = Some raw /\
    index logTypesColors INFO = Some color /\
    GetLogTypeString INFO = Some name /\
    name = raw +:+ Repeat " " (Z.to_nat (len "CRITICAL" - len raw)) /\
    len name = len "CRITICAL" /\
    log (NewLogger stdout0) clock0 INFO (PString "200 | ok! | 1ms | GET /x") = Returns l' /\
    pending l' = pending (NewLogger stdout0) ++
      ["[" +:+ (ESC +:+ "[" +:+ color +:+ "m" +:+ name +:+ ESC +:+ "[0m") +:+ "] "
           +:+ clock0 +:+ " | " +:+ "200 | ok! | 1ms | GET /x" +:+ " | " +:+ LF].
Proof.
  apply (text_payload_record (NewLogger stdout0) clock0 clock0);
    [unfold INFO; lia | reflexivity | reflexivity | simpl; unfold INFO, DEBUG; lia
    | reflexivity | reflexivity].
Defined.






(** C9.  In a sequence payload each field contributes its segment, in
    order, between the header and the line feed.  A field [body-c] whose
    last byte [c] is a key of [dataColor] contributes [body] between the
    escape sequence of the mapped code and the reset sequence; a field with
    no such suffix contributes its own text. *)
Theorem color_suffix_fields
        (clock ts : string) (logType : LogType) (iSli : list string) :
  0 <= logType <= 6 ->
  formatTime clock = Some ts ->
  (exists color name format data,
      index logTypesColors logType = Some color /\
      GetLogTypeString logType = Some name /\
      DefaultLogFormatFunc clock logType (PStrings iSli) = Some (format, data, true) /\
      Sprintf format data
      = Some (header color name ts +:+ Join (segment <$> iSli) +:+ LF)) /\
  (forall body c code,
      dataColor !! c = Some code ->
      segment (body +:+ "-" +:+ c)
      = (ESC +:+ "[" +:+ code +:+ "m" +:+ body +:+ ESC +:+ "[0m") +:+ " | ") /\
  (forall s,
      (forall body c, s = body +:+ "-" +:+ c -> dataColor !! c = None) ->
      segment s = s +:+ " | ").
Proof.
  intros Ht Hts. split; [|split].
  - exact (DefaultLogFormatFunc_fields clock ts logType iSli Ht Hts).
  - intros body c code Hk.
    rewrite (segment_colored _ body code (dataColor_codes _ _ Hk) (field_colored _ _ _ Hk)).
    str_norm. reflexivity.
  - intros s Hno. apply segment_plain, field_plain, Hno.
Qed.

Lemma color_suffix_fields_witness :
  (exists color name format data,
      index logTypesColors ERROR = Some color /\
      GetLogTypeString ERROR = Some name /\
      DefaultLogFormatFunc clock0 ERROR (PStrings ["GET-y"; "GET"]) = Some (format, data, true) /\
      Sprintf format data
      = Some (header color name clock0 +:+ Join (segment <$> ["GET-y"; "GET"]) +:+ LF)) /\
  (forall body c code,
      dataColor !! c = Some code ->
      segment (body +:+ "-" +:+ c)
      = (ESC +:+ "[" +:+ code +:+ "m" +:+ body +:+ ESC +:+ "[0m") +:+ " | ") /\
  (forall s,
      (forall body c, s = body +:+ "-" +:+ c -> dataColor !! c = None) ->
      segment s = s +:+ " | ").
Proof.
  apply (color_suffix_fields clock0 clock0 ERROR ["GET-y"; "GET"]);
    [unfold ERROR; lia | reflexivity].
Defined.

(** The two fields of the specification's example. *)
Example segment_GET_y :
  segment "GET-y" = ESC +:+ "[43;97mGET" +:+ ESC +:+ "[0m | " /\
  segment "GET" = "GET | ".
Proof. split; reflexivity. Qed.

(** C10.  A field that is exactly a recognised suffix is cut down to the
    empty text and still gets its coloured piece and its delimiter; a field
    of fewer than two bytes is never cut and contributes its own text.  In
    both cases the record of a one-field payload is the header, that
    segment and the line feed. *)
Theorem bare_suffix_and_short_fields
        (clock ts : string) (logType : LogType) (s : string) :
  0 <= logType <= 6 ->
  formatTime clock = Some ts ->
  (forall c code,
      dataColor !! c = Some code ->
      field ("-" +:+ c) = (colored code, "") /\
      segment ("-" +:+ c) = (ESC +:+ "[" +:+ code +:+ "m" +:+ "" +:+ ESC +:+ "[0m") +:+ " | " /\
      exists color name format data,
        index logTypesColors logType = Some color /\
        GetLogTypeString logType = Some name /\
        DefaultLogFormatFunc clock logType (PStrings ["-" +:+ c]) = Some (format, data, true) /\
        Sprintf format data
        = Some (header color name ts +:+
                ((ESC +:+ "[" +:+ code +:+ "m" +:+ ESC +:+ "[0m") +:+ " | ") +:+ LF)) /\
  (len s < 2 ->
      field s = ("%s | ", s) /\
      segment s = s +:+ " | " /\
      exists color name format data,
        index logTypesColors logType = Some color /\
        GetLogTypeString logType = Some name /\
        DefaultLogFormatFunc clock logType (PStrings [s]) = Some (format, data, true) /\
        Sprintf format data = Some (header color name ts +:+ (s +:+ " | ") +:+ LF)).
Proof.
  intros Ht Hts. split.
  - intros c code Hk.
    pose proof (field_colored "" c code Hk) as Hf. cbn [String.append] in Hf.
    change ("-" +:+ c) with (String "-" c).
    pose proof (segment_colored _ _ _ (dataColor_codes _ _ Hk) Hf) as Hseg.
    split; [exact Hf|]. split; [rewrite Hseg; str_norm; reflexivity|].
    destruct (DefaultLogFormatFunc_fields clock ts logType ["-" +:+ c] Ht Hts)
      as (color & name & format & data & Hc & Hn & Hd & Hs).
    exists color, name, format, data. repeat (split; [assumption|]).
    rewrite Hs. cbn [fmap list_fmap Join String.append]. rewrite Hseg.
    str_norm. reflexivity.
  - intros Hshort.
    assert (Hf : field s = ("%s | ", s)).
    { unfold field. now replace (2 <=? len s) with false by (symmetry; apply Z.leb_gt; lia). }
    pose proof (segment_plain s Hf) as Hseg.
    split; [exact Hf|]. split; [exact Hseg|].
    destruct (DefaultLogFormatFunc_fields clock ts logType [s] Ht Hts)
      as (color & name & format & data & Hc & Hn & Hd & Hs).
    exists color, name, format, data. repeat (split; [assumption|]).
    rewrite Hs. cbn [fmap list_fmap Join]. rewrite Hseg. str_norm. reflexivity.
Qed.

Lemma bare_suffix_and_short_fields_witness :
  (field "-r" = (colored "41;97", "") /\
   segment "-r" = (ESC +:+ "[" +:+ "41;97" +:+ "m" +:+ "" +:+ ESC +:+ "[0m") +:+ " | ") /\
  (field "G" = ("%s | ", "G") /\ segment "G" = "G" +:+ " | ").
Proof.
  destruct (bare_suffix_and_short_fields clock0 clock0 INFO "G") as [Hbare Hshort];
    [unfold INFO; lia | reflexivity |].
  destruct (Hbare "r" "41;97") as (H1 & H2 & _); [reflexivity|].
  destruct Hshort as (H3 & H4 & _); [vm_compute; reflexivity|].
  exact (conj (conj H1 H2) (conj H3 H4)).
Defined.

(** C1, as stated, fails: for the payload [1] of the doc comment's
    [l.Warn(1)] the default pipeline answers with the emit flag set, and the
    call appends an entry (the empty string) to the cache buffer. *)
Lemma unrecognized_payload_is_enqueued :
  DefaultLogFormatFunc clock0 WARN (POther "int") = Some ("", [], true) /\
  exists l',
    Warn (NewLogger stdout0) clock0 (POther "int") = Returns l' /\
    pending (NewLogger stdout0) = [] /\
    pending l' = [""] /\
    pending l' <> pending (NewLogger stdout0).
Proof.
  split; [reflexivity|]. eexists. split; [reflexivity|].
  split; [reflexivity|]. split; [reflexivity|]. discriminate.
Qed.

(** C1, amended.  For a payload that is neither a string nor a [[]string]
    the default pipeline returns the empty template, no values and the emit
    flag set, at every level; an emission call that passes the threshold
    therefore enqueues the empty string as an entry and touches the sink no
    more than any other call; in cache mode the next flush writes the batch
    that ends with this entry, which adds no byte to it. *)
Theorem unrecognized_payload_enqueues_empty
        (l : Logger) (clock ts dyn : string) (logType : LogType) :
  formatTime clock = Some ts ->
  logFormatFunc l = DefaultLogFormatFunc ->
  logLevel l <= logType ->
  wf l = true -> has_room l = true ->
  DefaultLogFormatFunc clock logType (POther dyn) = Some ("", [], true) /\
  exists l',
    log l clock logType (POther dyn) = Returns l' /\
    pending l' = pending l ++ [""] /\
    out l' = out l /\
    (cache_use l = true -> hd false (faults (out l)) = false ->
     exists l'',
       flush l' = Returns l'' /\
       written (out l'') = written (out l) ++ [(Join (pending l ++ [""]), false)] /\
       Join (pending l ++ [""]) = Join (pending l)).
Proof.
  intros Hts Hf Hlv Hwf Hroom.
  pose proof (DefaultLogFormatFunc_other clock ts dyn logType Hts) as Hdef.
  split; [exact Hdef|].
  pose proof Hdef as Hdef'. rewrite <- Hf in Hdef'.
  destruct (log_accept l clock logType (POther dyn) "" [] "" Hlv Hdef' eq_refl Hwf Hroom)
    as (l' & Hlog & Hpend & Hout & Hwf' & Huse & _).
  exists l'. repeat (split; [assumption|]).
  intros Hc Hok. rewrite Hc in Huse. rewrite <- Hout in Hok.
  assert (Hne : pending l' <> []) by (rewrite Hpend; apply app_singleton_not_nil).
  destruct (flush_pending l' Huse Hne Hok) as (l'' & Hfl & Hw).
  exists l''. split; [exact Hfl|]. split; [now rewrite Hw, Hout, Hpend|].
  rewrite Join_app. cbn [Join String.append]. apply app_nil_r_str.
Qed.

Lemma unrecognized_payload_enqueues_empty_witness :
  DefaultLogFormatFunc clock0 WARN (POther "int") = Some ("", [], true) /\
  exists l',
    log (NewLogger stdout0) clock0 WARN (POther "int") = Returns l' /\
    pending l' = pending (NewLogger stdout0) ++ [""] /\
    out l' = out (NewLogger stdout0) /\
    (cache_use (NewLogger stdout0) = true ->
     hd false (faults (out (NewLogger stdout0))) = false ->
     exists l'',
       flush l' = Returns l'' /\
       written (out l'') = written (out (NewLogger stdout0))
                           ++ [(Join (pending (NewLogger stdout0) ++ [""]), false)] /\
       Join (pending (NewLogger stdout0) ++ [""]) = Join (pending (NewLogger stdout0))).
Proof.
  apply (unrecognized_payload_enqueues_empty (NewLogger stdout0) clock0 clock0);
    [reflexivity | reflexivity | simpl; unfold WARN, DEBUG; lia
    | reflexivity | reflexivity].
Defined.



(** C3 (the code departs from it).  The retry of [flush] joins the kept
    slice a second time, and that slice shares its array with the live
    buffer, which [log] appends to under another lock.  An entry emitted
    between the failed write and the retry lands in slot 0: the retry writes
    the second entry, not the bytes that failed; the first entry reaches the
    sink never, and nothing panics. *)
Theorem retry_writes_other_bytes :
  exists s eA eB,
    run (Start (boot (NewLogger fail_once))) emit_before_retry = Some s /\
    emitted (Start (boot (NewLogger fail_once))) emit_before_retry = [eA; eB] /\
    eA <> eB /\
    written (out (lg s)) = [(eA, true); (eB, false)] /\
    delivered (out (lg s)) = [eB] /\
    flushes s = [] /\ crashed s = false.
Proof.
  eexists _, _, _. split; [vm_compute; reflexivity|].
  split; [vm_compute; reflexivity|].
  split; [discriminate|].
  split; [reflexivity|]. split; [reflexivity|]. split; reflexivity.
Qed.

(** X20.  Run without interruption, both delivery modes follow one policy:
    the message goes to the sink once when the write succeeds; when it
    fails, the same bytes go once more and no third time; when that second
    write fails as well, the call panics.  The message is the head of the
    queue for the drain worker and the joined buffer for [flush]. *)
Theorem write_retry_policy (l : Logger) :
  let err1 := hd false (faults (out l)) in
  let err2 := hd false (tl (faults (out l))) in
  (forall msg q, queue l = Some (msg :: q) ->
     (err1 = false ->
        exists l', drain l = Returns l' /\
                   written (out l') = written (out l) ++ [(msg, false)]) /\
     (err1 = true -> err2 = false ->
        exists l', drain l = Returns l' /\
                   written (out l') = written (out l) ++ [(msg, true); (msg, false)]) /\
     (err1 = true -> err2 = true ->
        exists l', drain l = Panics l' /\
                   written (out l') = written (out l) ++ [(msg, true); (msg, true)])) /\
  (slen (cache_data l) <> 0%nat ->
     let msg := Join (elems (heap l) (cache_data l)) in
     (err1 = false ->
        exists l', flush l = Returns l' /\
                   written (out l') = written (out l) ++ [(msg, false)]) /\
     (err1 = true -> err2 = false ->
        exists l', flush l = Returns l' /\
                   written (out l') = written (out l) ++ [(msg, true); (msg, false)]) /\
     (err1 = true -> err2 = true ->
        exists l', flush l = Panics l' /\
                   written (out l') = written (out l) ++ [(msg, true); (msg, true)])).
Proof.
  intros err1 err2. subst err1 err2. split.
  - intros msg q Hq. unfold drain, WriteString. rewrite Hq.
    cbn [out set_queue set_out written faults hd tl].
    repeat split; intros H1; try intros H2; rewrite H1; try rewrite H2;
      cbn [written out set_out faults hd tl];
      eexists; (split; [reflexivity|]); cbn; now rewrite <- ?app_assoc.
  - intros Hne msg. subst msg. rewrite flush_unfold.
    unfold flush_write, WriteString. apply Nat.eqb_neq in Hne. rewrite Hne.
    cbn [out set_status set_cache_data set_out written faults heap hd tl].
    repeat split; intros H1; try intros H2; rewrite H1; try rewrite H2;
      cbn [written out set_out set_status faults hd tl];
      eexists; (split; [reflexivity|]); cbn; now rewrite <- ?app_assoc.
Qed.

Lemma write_retry_policy_witness :
  (exists l', drain two_faults = Panics l' /\
              written (out l') = written (out two_faults)
                                 ++ [("msg", true); ("msg", true)]) /\
  (exists l', flush two_faults = Panics l' /\
              written (out l') = written (out two_faults)
                                 ++ [(Join (elems (heap two_faults) (cache_data two_faults)), true);
                                     (Join (elems (heap two_faults) (cache_data two_faults)), true)]).
Proof.
  destruct (write_retry_policy two_faults) as [Hd Hf]. split.
  - destruct (Hd "msg" [] eq_refl) as (_ & _ & H). apply H; reflexivity.
  - destruct Hf as (_ & _ & H); [vm_compute; discriminate|]. apply H; reflexivity.
Defined.

(** C6, as stated, fails: two flushes of the empty buffer of a new logger
    both return and leave the sink without a single write, not with one. *)
Lemma flushing_empty_twice_writes_nothing :
  exists l1 l2,
    flush (NewLogger stdout0) = Returns l1 /\ flush l1 = Returns l2 /\
    written (out l2) = [] /\ length (written (out l2)) <> 1%nat.
Proof.
  eexists _, _. split; [reflexivity|]. split; [reflexivity|].
  split; [reflexivity|]. discriminate.
Qed.

(** C6, amended.  A flush that finds the buffer empty returns without a
    sink write, and so does a second one: none in total.  A flush that finds
    entries and whose write succeeds makes one write of the joined entries,
    and a second flush right after it returns without a write: exactly one in
    total.  Whenever a flush has returned, the next flush with no emission in
    between writes nothing. *)
Theorem flush_twice (l : Logger) :
  (slen (cache_data l) = 0%nat ->
     exists l1 l2, flush l = Returns l1 /\ flush l1 = Returns l2 /\
                   out l1 = out l /\ out l2 = out l) /\
  (slen (cache_data l) <> 0%nat -> hd false (faults (out l)) = false ->
     exists l1 l2, flush l = Returns l1 /\ flush l1 = Returns l2 /\
                   written (out l2)
                   = written (out l) ++ [(Join (elems (heap l) (cache_data l)), false)]) /\
  (forall l1, flush l = Returns l1 ->
     exists l2, flush l1 = Returns l2 /\ out l2 = out l1).
Proof.
  assert (Hsecond : forall l1, flush l = Returns l1 ->
                      exists l2, flush l1 = Returns l2 /\ out l2 = out l1).
  { intros l1 H1. apply flush_leaves_empty in H1.
    destruct (flush_empty l1 H1) as (l2 & H2 & Ho & _). eauto. }
  split; [|split; [|exact Hsecond]].
  - intros H0. destruct (flush_empty l H0) as (l1 & H1 & Ho & _).
    destruct (Hsecond l1 H1) as (l2 & H2 & Ho2).
    exists l1, l2. repeat split; congruence.
  - intros Hne Hok. destruct (flush_nonempty l Hne Hok) as (l1 & H1 & Hw & _).
    destruct (Hsecond l1 H1) as (l2 & H2 & Ho2).
    exists l1, l2. repeat split; congruence.
Qed.

Lemma flush_twice_witness :
  (exists l1 l2, flush (NewLogger stdout0) = Returns l1 /\ flush l1 = Returns l2 /\
                 out l1 = out (NewLogger stdout0) /\ out l2 = out (NewLogger stdout0)) /\
  (exists l1 l2, flush one_entry = Returns l1 /\ flush l1 = Returns l2 /\
                 written (out l2)
                 = written (out one_entry)
                   ++ [(Join (elems (heap one_entry) (cache_data one_entry)), false)]).
Proof.
  split.
  - destruct (flush_twice (NewLogger stdout0)) as (H & _ & _). apply H. reflexivity.
  - destruct (flush_twice one_entry) as (_ & H & _).
    apply H; [vm_compute; discriminate | reflexivity].
Defined.

(** * The scheduler and concurrent emission *)

(** A tick that reads [statusDoing] launches nothing. *)
Lemma tick_skips (s : System) :
  status (lg s) = statusDoing -> tick s = s.
Proof.
  intros H. unfold tick. rewrite H. now destruct (decide _) as [Hne|].
Qed.

(** A tick that reads any other status launches one flush goroutine. *)
Lemma tick_launches (s : System) :
  status (lg s) <> statusDoing ->
  flushes (tick s) = flushes s ++ [AtEntry] /\ lg (tick s) = lg s.
Proof.
  intros H. unfold tick. destruct (decide _) as [|Hn]; [split; reflexivity|].
  now contradict Hn.
Qed.

(** C4 (the code departs from it).  The status is set by the flush
    goroutine itself, not by the tick that launches it.  Two ticks that both
    come before the first goroutine has run each read a status other than
    [statusDoing] (the zero value of a new logger) and each launch a flush; both goroutines then set [statusDoing] and are in
    progress together. *)
Theorem two_flushes_in_progress (w : Writer) :
  exists s,
    run (Start (boot (NewLogger w))) [Tick; Tick; FlushStep 0; FlushStep 1] = Some s /\
    flushes s = [AtLock; AtLock] /\
    length (filter (fun t => in_progress t = true) (flushes s)) = 2%nat /\
    status (lg s) = statusDoing /\ crashed s = false.
Proof.
  eexists. split; [reflexivity|]. repeat split; reflexivity.
Qed.

(** C5 (the code departs from it).  [flush] keeps the old slice header and
    truncates the live one to length 0 over the same array, and [log]
    appends under [l.mu], not under [l.cache.mutex].  An entry appended
    between the swap and the write lands in slot 0 of the array the flush is
    about to join: the first entry is lost and the second one is written
    twice. *)
Theorem entry_after_swap_overwrites_batch :
  exists s eA eB,
    run (Start (boot (NewLogger stdout0))) swap_then_emit = Some s /\
    emitted (Start (boot (NewLogger stdout0))) swap_then_emit = [eA; eB] /\
    eA <> eB /\
    delivered (out (lg s)) = [eB; eB] /\
    flushes s = [] /\ pending (lg s) = [] /\ crashed s = false /\
    Join (delivered (out (lg s)))
    <> Join (emitted (Start (boot (NewLogger stdout0))) swap_then_emit).
Proof.
  eexists _, _, _. split; [vm_compute; reflexivity|].
  split; [vm_compute; reflexivity|].
  split; [discriminate|].
  split; [vm_compute; reflexivity|].
  split; [reflexivity|]. split; [reflexivity|]. split; [reflexivity|].
  vm_compute. discriminate.
Qed.

(** * Further properties of the format pipeline *)

(** X1.  [GetLogTypeString] answers for the seven levels, always with a
    name of 8 bytes, and panics on every other level. *)
Theorem GetLogTypeString_bounds (t : LogType) :
  (0 <= t <= 6 -> exists name, GetLogTypeString t = Some name /\ len name = 8) /\
  (t < 0 \/ 6 < t -> GetLogTypeString t = None).
Proof.
  split.
  - intros H. destruct (logTypeStrings_padded t H) as (raw & name & _ & Hn & _ & Hl).
    eauto.
  - intros H. unfold GetLogTypeString, index.
    destruct (t <? 0) eqn:Hneg; [reflexivity|].
    apply Z.ltb_ge in Hneg. apply lookup_ge_None.
    change (length logTypeStrings) with 7%nat. lia.
Qed.

(** X2.  A clock rendering that lost one to three trailing zeros gets
    exactly the missing zeros back and has the width of the layout. *)
Theorem timestamp_zero_padding (clock : string) :
  23 <= len clock <= 25 ->
  formatTime clock = Some (clock +:+ Repeat "0" (Z.to_nat (26 - len clock))) /\
  (forall ts, formatTime clock = Some ts -> len ts = len layout).
Proof. exact (formatTime_pads_zeros clock). Qed.

Lemma timestamp_zero_padding_witness :
  formatTime "2006/01/02 - 15:04:05.9"
  = Some ("2006/01/02 - 15:04:05.9" +:+
          Repeat "0" (Z.to_nat (26 - len "2006/01/02 - 15:04:05.9"))) /\
  (forall ts, formatTime "2006/01/02 - 15:04:05.9" = Some ts -> len ts = len layout).
Proof.
  apply (timestamp_zero_padding "2006/01/02 - 15:04:05.9"). vm_compute.
  split; discriminate.
Defined.

Lemma substr_000 (lo : Z) :
  substr ".000" lo 4 = None <-> lo < 0 \/ 4 < lo.
Proof.
  unfold substr. change (len ".000") with 4.
  destruct (0 <=? lo) eqn:H0; destruct (lo <=? 4) eqn:H1; cbn;
    try apply Z.leb_le in H0; try apply Z.leb_gt in H0;
    try apply Z.leb_le in H1; try apply Z.leb_gt in H1;
    split; intros H; try discriminate; try lia; reflexivity.
Qed.

(** X3.  The timestamp code panics exactly on clock renderings shorter than
    21 or longer than 26 bytes; whenever it returns, the result starts with
    the rendering and has the 26 bytes of the layout. *)
Theorem timestamp_width (clock : string) :
  (formatTime clock = None <-> len clock < 21 \/ 26 < len clock) /\
  (forall ts, formatTime clock = Some ts ->
     len ts = 26 /\ exists pad, ts = clock +:+ pad).
Proof.
  assert (Hcases : len clock < 21 \/ 26 < len clock \/ len clock = 21 \/
                   len clock = 22 \/ 23 <= len clock <= 25 \/ len clock = 26)
    by (unfold len; lia).
  destruct Hcases as [H|[H|[H|[H|[H|H]]]]].
  - assert (Hn : formatTime clock = None).
    { unfold formatTime. change (len layout) with 26.
      replace (len clock =? 26) with false by (symmetry; apply Z.eqb_neq; lia).
      replace (len clock =? 21) with false by (symmetry; apply Z.eqb_neq; lia).
      destruct (substr ".000" (4 - (26 - len clock)) 4) eqn:Hs; [|reflexivity].
      assert (Hnone : substr ".000" (4 - (26 - len clock)) 4 = None)
        by (apply substr_000; lia).
      congruence. }
    rewrite Hn. split; [split; [lia | reflexivity]|]. intros ts [=].
  - assert (Hn : formatTime clock = None).
    { unfold formatTime. change (len layout) with 26.
      replace (len clock =? 26) with false by (symmetry; apply Z.eqb_neq; lia).
      replace (len clock =? 21) with false by (symmetry; apply Z.eqb_neq; lia).
      destruct (substr ".000" (4 - (26 - len clock)) 4) eqn:Hs; [|reflexivity].
      assert (Hnone : substr ".000" (4 - (26 - len clock)) 4 = None)
        by (apply substr_000; lia).
      congruence. }
    rewrite Hn. split; [split; [lia | reflexivity]|]. intros ts [=].
  - rewrite (formatTime_no_fraction clock H).
    split; [split; [discriminate | lia]|]. intros ts [= <-].
    split; [|eauto]. unfold len in *. rewrite str_length_app. cbn. lia.
  - assert (Hs : formatTime clock = Some (clock +:+ ".000")).
    { unfold formatTime. change (len layout) with 26. rewrite H.
      cbn [Z.eqb Pos.eqb]. rewrite H. reflexivity. }
    rewrite Hs. split; [split; [discriminate | lia]|]. intros ts [= <-].
    split; [|eauto]. unfold len in *. rewrite str_length_app. cbn. lia.
  - destruct (formatTime_pads_zeros clock H) as [Hs Hw]. rewrite Hs.
    split; [split; [discriminate | lia]|]. intros ts [= <-].
    split; [|eauto]. apply Hw. exact Hs.
  - rewrite (formatTime_full clock H).
    split; [split; [discriminate | lia]|]. intros ts [= <-].
    split; [exact H|]. exists "". symmetry. apply app_nil_r_str.
Qed.

(** X4.  With a level outside the seven, the default pipeline panics on a
    text payload and on a sequence payload, whatever the clock; on any other
    payload it takes no index and answers as for every level. *)
Theorem default_pipeline_level_out_of_range
        (clock ts : string) (logType : LogType) :
  logType < 0 \/ 6 < logType ->
  (forall iStr, DefaultLogFormatFunc clock logType (PString iStr) = None) /\
  (forall iSli, DefaultLogFormatFunc clock logType (PStrings iSli) = None) /\
  (formatTime clock = Some ts ->
   forall dyn, DefaultLogFormatFunc clock logType (POther dyn) = Some ("", [], true)).
Proof.
  intros H.
  assert (Hc : index logTypesColors logType = None).
  { unfold index. destruct (logType <? 0) eqn:Hneg; [reflexivity|].
    apply Z.ltb_ge in Hneg. apply lookup_ge_None.
    change (length logTypesColors) with 7%nat. lia. }
  unfold DefaultLogFormatFunc. repeat split.
  - intros iStr. destruct (formatTime clock); cbn [mbind option_bind]; [|reflexivity].
    now rewrite Hc.
  - intros iSli. destruct (formatTime clock); cbn [mbind option_bind]; [|reflexivity].
    now rewrite Hc.
  - intros Hts dyn. now rewrite Hts.
Qed.

Lemma default_pipeline_level_out_of_range_witness :
  (forall iStr, DefaultLogFormatFunc clock0 7 (PString iStr) = None) /\
  (forall iSli, DefaultLogFormatFunc clock0 7 (PStrings iSli) = None) /\
  (formatTime clock0 = Some clock0 ->
   forall dyn, DefaultLogFormatFunc clock0 7 (POther dyn) = Some ("", [], true)).
Proof.
  apply (default_pipeline_level_out_of_range clock0 clock0 7). right. lia.
Defined.

Lemma fields_length (iSli : list string) :
  length (fields iSli).2 = length iSli.
Proof.
  induction iSli as [|s rest IH]; [reflexivity|].
  cbn [fields]. destruct (field s) as [piece tj].
  destruct (fields rest) as [b values]. cbn [snd length] in *. now rewrite IH.
Qed.

(** The default pipeline at the seven levels. *)
Lemma DefaultLogFormatFunc_total
        (clock ts : string) (logType : LogType) (i : payload) :
  0 <= logType <= 6 ->
  formatTime clock = Some ts ->
  exists format data entry,
    DefaultLogFormatFunc clock logType i = Some (format, data, true) /\
    Sprintf format data = Some entry /\
    length data = match i with
                  | PString _ => 3%nat
                  | PStrings iSli => (length iSli + 2)%nat
                  | POther _ => 0%nat
                  end.
Proof.
  intros Ht Hts. destruct i as [iStr|iSli|dyn].
  - destruct (DefaultLogFormatFunc_text clock ts iStr logType Ht Hts)
      as (color & name & format & data & Hc & Hn & Hd & Hs).
    exists format, data. eexists. split; [exact Hd|]. split; [exact Hs|].
    unfold DefaultLogFormatFunc, GetLogTypeString in *.
    rewrite Hts, Hc, Hn in Hd. cbn [mbind option_bind] in Hd.
    injection Hd as _ <-. reflexivity.
  - destruct (DefaultLogFormatFunc_fields clock ts logType iSli Ht Hts)
      as (color & name & format & data & Hc & Hn & Hd & Hs).
    exists format, data. eexists. split; [exact Hd|]. split; [exact Hs|].
    unfold DefaultLogFormatFunc, GetLogTypeString in *.
    rewrite Hts, Hc, Hn in Hd. cbn [mbind option_bind] in Hd.
    pose proof (fields_length iSli) as Hl.
    destruct (fields iSli) as [b values]. injection Hd as _ <-.
    cbn [length snd] in *. lia.
  - exists "", [], "". rewrite (DefaultLogFormatFunc_other clock ts dyn logType Hts).
    repeat split.
Qed.

(** X5.  At the seven levels, with a clock rendering the timestamp code
    accepts, the default pipeline never panics and never vetoes, and its
    template and values agree: there is one value per [%s], so [Sprintf]
    fills the template with none missing and none left over.  The values
    are the level name, the timestamp and one value per field. *)
Theorem default_pipeline_always_emits
        (clock ts : string) (logType : LogType) (i : payload) :
  0 <= logType <= 6 ->
  formatTime clock = Some ts ->
  exists format data entry,
    DefaultLogFormatFunc clock logType i = Some (format, data, true) /\
    Sprintf format data = Some entry /\
    length data = match i with
                  | PString _ => 3%nat
                  | PStrings iSli => (length iSli + 2)%nat
                  | POther _ => 0%nat
                  end.
Proof. exact (@DefaultLogFormatFunc_total clock ts logType i). Qed.

Lemma default_pipeline_always_emits_witness :
  exists format data entry,
    DefaultLogFormatFunc clock0 ERROR (PStrings ["404-r"; "NOT FOUND"])
    = Some (format, data, true) /\
    Sprintf format data = Some entry /\
    length data = (length ["404-r"; "NOT FOUND"] + 2)%nat.
Proof.
  apply (default_pipeline_always_emits clock0 clock0 ERROR
           (PStrings ["404-r"; "NOT FOUND"]));
    [unfold ERROR; lia | reflexivity].
Defined.

(** * Further properties of the emission call *)

(** What an emission call leaves alone. *)
Lemma log_frame
        (l l' : Logger) (clock : string) (logType : LogType) (i : payload) :
  log l clock logType i = Returns l' \/ log l clock logType i = Panics l' ->
  out l' = out l /\ status l' = status l /\ logLevel l' = logLevel l /\
  cache_use l' = cache_use l /\ queueSize l' = queueSize l /\
  logFormatFunc l' = logFormatFunc l /\
  (wf l = true -> wf l' = true).
Proof.
  unfold log.
  destruct (logType <? logLevel l); [intros [[= <-]|[=]]; auto 10|].
  destruct (logFormatFunc l clock logType i) as [[[format data] isLog]|];
    [|intros [[=]|[= <-]]; auto 10].
  destruct isLog; cbn [negb]; [|intros [[= <-]|[=]]; auto 10].
  destruct (Sprintf format data) as [entry|]; [|intros [[=]|[=]]].
  destruct (cache_use l) eqn:Huse.
  - pose proof (append_elems (heap l) (cache_data l) entry) as Happ.
    destruct (append (heap l) (cache_data l) entry) as [h d].
    intros [[= <-]|[=]]. cbn. repeat split; try assumption.
    intros Hwf. unfold wf in *. cbn. now apply Happ.
  - destruct (queue l) as [q|]; [|intros [[=]|[=]]].
    destruct (Z.of_nat (length q) <? queueSize l); intros [[= <-]|[=]].
    cbn. repeat split; try assumption. auto.
Qed.

(** X6.  An emission call does no I/O and changes no setting: however it
    ends, the sink, the flush status, the threshold, the mode, the queue
    capacity and the pipeline are as before; and it never leaves the cache
    header outside its array. *)
Theorem log_touches_only_the_buffers
        (l l' : Logger) (clock : string) (logType : LogType) (i : payload) :
  log l clock logType i = Returns l' \/ log l clock logType i = Panics l' ->
  out l' = out l /\ status l' = status l /\ logLevel l' = logLevel l /\
  cache_use l' = cache_use l /\ queueSize l' = queueSize l /\
  logFormatFunc l' = logFormatFunc l /\
  (wf l = true -> wf l' = true).
Proof. exact (@log_frame l l' clock logType i). Qed.

Lemma log_touches_only_the_buffers_witness :
  exists l',
    log (NewLogger stdout0) clock0 INFO (PString "x") = Returns l' /\
    out l' = out (NewLogger stdout0) /\ status l' = status (NewLogger stdout0) /\
    logLevel l' = logLevel (NewLogger stdout0) /\
    cache_use l' = cache_use (NewLogger stdout0) /\
    queueSize l' = queueSize (NewLogger stdout0) /\
    logFormatFunc l' = logFormatFunc (NewLogger stdout0) /\
    (wf (NewLogger stdout0) = true -> wf l' = true).
Proof.
  eexists. split; [reflexivity|].
  apply (log_touches_only_the_buffers (NewLogger stdout0) _ clock0 INFO (PString "x")).
  left. reflexivity.
Defined.

(** The send of an accepted record in queue mode. *)
Lemma log_queue_send
        (l : Logger) (clock : string) (logType : LogType) (i : payload)
        (format : string) (data : list string) (entry : string) :
  cache_use l = false ->
  logLevel l <= logType ->
  logFormatFunc l clock logType i = Some (format, data, true) ->
  Sprintf format data = Some entry ->
  (log l clock logType i = Blocks <->
   queue l = None \/ exists q, queue l = Some q /\ queueSize l <= Z.of_nat (length q)) /\
  (forall q, queue l = Some q -> Z.of_nat (length q) < queueSize l ->
     log l clock logType i = Returns (set_queue (Some (q ++ [entry])) l)).
Proof.
  intros Huse Hlv Hf Hs. unfold log.
  replace (logType <? logLevel l) with false by (symmetry; apply Z.ltb_ge; lia).
  rewrite Hf, Hs, Huse. cbn [negb].
  destruct (queue l) as [q|] eqn:Hq.
  - destruct (Z.of_nat (length q) <? queueSize l) eqn:Hroom.
    + apply Z.ltb_lt in Hroom. split.
      * split; [discriminate|]. intros [[=]|(q' & [= <-] & Hfull)]. lia.
      * intros q' [= <-] _. reflexivity.
    + apply Z.ltb_ge in Hroom. split.
      * split; [|reflexivity]. intros _. right. eauto.
      * intros q' [= <-] Hlt. lia.
  - split; [split; [auto | reflexivity]|]. intros q' [=].
Qed.

(** X7.  Queue mode with a buffered channel never drops an accepted
    record: the call blocks exactly when the channel is nil (the logger was
    not started) or holds [queueSize] messages or more, and otherwise puts
    the record behind the ones already queued and changes nothing else. *)
Theorem queue_mode_backpressure
        (l : Logger) (clock : string) (logType : LogType) (i : payload)
        (format : string) (data : list string) (entry : string) :
  0 < queueSize l ->
  cache_use l = false ->
  logLevel l <= logType ->
  logFormatFunc l clock logType i = Some (format, data, true) ->
  Sprintf format data = Some entry ->
  (log l clock logType i = Blocks <->
   queue l = None \/ exists q, queue l = Some q /\ queueSize l <= Z.of_nat (length q)) /\
  (forall q, queue l = Some q -> Z.of_nat (length q) < queueSize l ->
     log l clock logType i = Returns (set_queue (Some (q ++ [entry])) l)).
Proof. intros _. exact (@log_queue_send l clock logType i format data entry). Qed.

Lemma queue_mode_backpressure_witness :
  (log (SetCacheSwitch false (NewLogger stdout0)) clock0 INFO (POther "int") = Blocks <->
   queue (SetCacheSwitch false (NewLogger stdout0)) = None \/
   exists q, queue (SetCacheSwitch false (NewLogger stdout0)) = Some q /\
             queueSize (SetCacheSwitch false (NewLogger stdout0)) <= Z.of_nat (length q)) /\
  (forall q, queue (SetCacheSwitch false (NewLogger stdout0)) = Some q ->
     Z.of_nat (length q) < queueSize (SetCacheSwitch false (NewLogger stdout0)) ->
     log (SetCacheSwitch false (NewLogger stdout0)) clock0 INFO (POther "int")
     = Returns (set_queue (Some (q ++ [""])) (SetCacheSwitch false (NewLogger stdout0)))).
Proof.
  apply (queue_mode_backpressure (SetCacheSwitch false (NewLogger stdout0))
           clock0 INFO (POther "int") "" [] "");
    [simpl; lia | reflexivity | simpl; unfold INFO, DEBUG; lia
    | reflexivity | reflexivity].
Defined.

(** X8.  A pipeline that vetoes makes the call a no-op at every level; a
    pipeline that panics makes the call panic, with the logger as it was,
    when the level passes the threshold, and is not even run below it. *)
Theorem custom_pipeline_veto_and_panic
        (l : Logger) (f : FormatFunc) (clock : string) (logType : LogType)
        (i : payload) :
  (forall format data, f clock logType i = Some (format, data, false) ->
     log (SetLoggerFormat f l) clock logType i = Returns (SetLoggerFormat f l)) /\
  (f clock logType i = None ->
     (logLevel l <= logType ->
      log (SetLoggerFormat f l) clock logType i = Panics (SetLoggerFormat f l)) /\
     (logType < logLevel l ->
      log (SetLoggerFormat f l) clock logType i = Returns (SetLoggerFormat f l))).
Proof.
  split.
  - intros format data Hf. unfold log. cbn [SetLoggerFormat logLevel logFormatFunc].
    rewrite Hf. now destruct (logType <? logLevel l).
  - intros Hf. split; intros Hlv; unfold log;
      cbn [SetLoggerFormat logLevel logFormatFunc]; rewrite Hf.
    + now replace (logType <? logLevel l) with false by (symmetry; apply Z.ltb_ge; lia).
    + now replace (logType <? logLevel l) with true by (symmetry; apply Z.ltb_lt; lia).
Qed.

(** X9.  A threshold above [FATAL] silences all seven emission methods:
    each returns with the logger as it was, whatever the payload, and the
    pipeline is not run. *)
Theorem threshold_above_fatal_silences
        (l : Logger) (t : LogType) (clock : string) (i : payload) :
  FATAL < t ->
  let l' := SetLogLevel t l in
  Debug l' clock i = Returns l' /\ Info l' clock i = Returns l' /\
  Notice l' clock i = Returns l' /\ Warn l' clock i = Returns l' /\
  Error l' clock i = Returns l' /\ Critical l' clock i = Returns l' /\
  Fatal l' clock i = Returns l'.
Proof.
  intros Ht l'. unfold FATAL in Ht.
  repeat split; apply log_below; subst l'; cbn [SetLogLevel logLevel];
    unfold DEBUG, INFO, NOTICE, WARN, ERROR, CRITICAL, FATAL; lia.
Qed.

Lemma threshold_above_fatal_silences_witness :
  let l' := SetLogLevel 7 (NewLogger stdout0) in
  Debug l' clock0 (PString "x") = Returns l' /\ Info l' clock0 (PString "x") = Returns l' /\
  Notice l' clock0 (PString "x") = Returns l' /\ Warn l' clock0 (PString "x") = Returns l' /\
  Error l' clock0 (PString "x") = Returns l' /\ Critical l' clock0 (PString "x") = Returns l' /\
  Fatal l' clock0 (PString "x") = Returns l'.
Proof.
  apply (threshold_above_fatal_silences (NewLogger stdout0) 7 clock0 (PString "x")).
  unfold FATAL. lia.
Defined.

(** * Further properties of flush and of the drain worker *)

(** How [flush] ends. *)
Lemma flush_exit (l : Logger) :
  exists l',
    (flush l = Returns l' \/ flush l = Panics l') /\
    (flush l = Panics l' <->
     slen (cache_data l) <> 0%nat /\
     hd false (faults (out l)) = true /\ hd false (tl (faults (out l))) = true) /\
    status l' = statusDone /\
    cache_data l' = reslice0 (cache_data l) /\
    heap l' = heap l /\ queue l' = queue l /\
    logLevel l' = logLevel l /\ cache_use l' = cache_use l /\
    (wf l = true -> wf l' = true).
Proof.
  rewrite flush_unfold. unfold flush_write, WriteString.
  cbn [out heap set_status set_cache_data].
  assert (Hwf : wf l = true ->
                wf_slice (heap l) (reslice0 (cache_data l)) = true).
  { unfold wf, wf_slice, reslice0. cbn [ptr slen scap].
    destruct (heap l !! ptr (cache_data l)); [|discriminate].
    intros H. apply andb_true_iff in H as [H1 _]. rewrite H1. reflexivity. }
  destruct (slen (cache_data l) =? 0)%nat eqn:H0.
  - apply Nat.eqb_eq in H0. eexists. split; [left; reflexivity|].
    split; [split; [discriminate | intros [Hne _]; contradiction]|].
    cbn. auto 10.
  - apply Nat.eqb_neq in H0.
    destruct (hd false (faults (out l))) eqn:E1;
      [destruct (hd false (tl (faults (out l)))) eqn:E2|];
      cbn [faults hd tl]; try rewrite E2;
      eexists; (split; [first [left; reflexivity | right; reflexivity]|]);
      (split; [split; [first [discriminate | auto] | first [reflexivity | intros (_ & ? & ?); discriminate]]|]);
      cbn; auto 10.
Qed.

(** X10.  However [flush] ends, by returning or by panicking, it leaves
    the status at [statusDone], the live buffer cut to length 0 over the
    same array with the same capacity, and the store, the queue and the
    settings untouched; it ends in a panic exactly when the buffer held
    entries and two writes in a row failed, and then the entries are
    counted by the buffer no more although the sink never took them. *)
Theorem flush_exit_state (l l' : Logger) :
  flush l = Returns l' \/ flush l = Panics l' ->
  (flush l = Panics l' <->
   slen (cache_data l) <> 0%nat /\
   hd false (faults (out l)) = true /\ hd false (tl (faults (out l))) = true) /\
  status l' = statusDone /\
  cache_data l' = reslice0 (cache_data l) /\
  heap l' = heap l /\ queue l' = queue l /\
  logLevel l' = logLevel l /\ cache_use l' = cache_use l /\
  (wf l = true -> wf l' = true).
Proof.
  intros H. destruct (flush_exit l) as (l2 & H2 & Hrest).
  assert (l2 = l') as -> by (destruct H as [H|H], H2 as [H2|H2]; congruence).
  exact Hrest.
Qed.

Lemma flush_exit_state_witness :
  exists l',
    flush two_faults = Panics l' /\
    (flush two_faults = Panics l' <->
     slen (cache_data two_faults) <> 0%nat /\
     hd false (faults (out two_faults)) = true /\
     hd false (tl (faults (out two_faults))) = true) /\
    status l' = statusDone /\
    cache_data l' = reslice0 (cache_data two_faults) /\
    heap l' = heap two_faults /\ queue l' = queue two_faults /\
    logLevel l' = logLevel two_faults /\ cache_use l' = cache_use two_faults /\
    (wf two_faults = true -> wf l' = true).
Proof.
  eexists. split; [reflexivity|].
  apply (flush_exit_state two_faults). right. reflexivity.
Defined.

(** X11.  With a sink that does not fail, as many rounds of the drain
    worker as there are queued messages write each message once, oldest
    first, and empty the queue; the worker then waits. *)
Theorem drain_is_fifo (q : list string) (l : Logger) :
  queue l = Some q ->
  faults (out l) = [] ->
  exists l',
    drain_rounds (length q) l = Returns l' /\
    written (out l') = written (out l) ++ ((fun msg => (msg, false)) <$> q) /\
    queue l' = Some [] /\
    drain l' = Blocks.
Proof.
  revert l. induction q as [|msg q IH]; intros l Hq Hok.
  - exists l. cbn. rewrite app_nil_r. unfold drain. rewrite Hq. auto.
  - cbn [length drain_rounds]. unfold drain at 1. rewrite Hq.
    unfold WriteString. cbn [out set_queue]. rewrite Hok. cbn [hd].
    destruct (IH (set_out {| written := written (out l) ++ [(msg, false)];
                             faults := tl [] |} (set_queue (Some q) l)))
      as (l' & Hr & Hw & Hq' & Hb); [reflexivity | reflexivity|].
    exists l'. split; [exact Hr|]. split; [|auto].
    rewrite Hw. cbn. now rewrite <- app_assoc.
Qed.

Lemma drain_is_fifo_witness :
  exists l',
    drain_rounds (length ["a"; "b"; "c"])
                 (set_queue (Some ["a"; "b"; "c"]) (NewLogger stdout0)) = Returns l' /\
    written (out l')
    = written (out (set_queue (Some ["a"; "b"; "c"]) (NewLogger stdout0)))
      ++ ((fun msg => (msg, false)) <$> ["a"; "b"; "c"]) /\
    queue l' = Some [] /\
    drain l' = Blocks.
Proof.
  apply (drain_is_fifo ["a"; "b"; "c"]
           (set_queue (Some ["a"; "b"; "c"]) (NewLogger stdout0)));
    reflexivity.
Defined.

(** * Further properties of schedules *)

Lemma log_returns_pending
      (l l' : Logger) (clock : string) (logType : LogType) (i : payload) :
  log l clock logType i = Returns l' ->
  wf l = true ->
  pending l' = pending l ++ accepted l clock logType i.
Proof.
  unfold log, accepted.
  destruct (logType <? logLevel l); [intros [= <-] _; now rewrite app_nil_r|].
  destruct (logFormatFunc l clock logType i) as [[[format data] isLog]|];
    [|discriminate].
  destruct isLog; cbn [negb]; [|intros [= <-] _; now rewrite app_nil_r].
  destruct (Sprintf format data) as [entry|]; [|discriminate].
  unfold pending, wf. destruct (cache_use l) eqn:Huse.
  - intros H Hwf. destruct (append_elems (heap l) (cache_data l) entry Hwf) as [He _].
    destruct (append (heap l) (cache_data l) entry) as [h d].
    injection H as <-. cbn. now rewrite Huse.
  - destruct (queue l) as [q|]; [|discriminate].
    destruct (Z.of_nat (length q) <? queueSize l); [|discriminate].
    intros [= <-] _. cbn. now rewrite Huse.
Qed.

Lemma emitted_cons (s s1 : System) (clock : string) (logType : LogType)
      (i : payload) (es : list event) :
  step s (Emit clock logType i) = Some s1 ->
  emitted s (Emit clock logType i :: es)
  = accepted (lg s) clock logType i ++ emitted s1 es.
Proof.
  intros Hstep. cbn [emitted]. rewrite Hstep. unfold accepted.
  destruct (logType <? logLevel (lg s)); [reflexivity|].
  destruct (logFormatFunc (lg s) clock logType i) as [[[format data] [|]]|];
    try reflexivity.
  destruct (Sprintf format data); reflexivity.
Qed.

Lemma crashed_run (s s' : System) (es : list event) :
  crashed s = true -> run s es = Some s' -> crashed s' = true.
Proof.
  intros Hc. destruct es as [|e es]; cbn [run].
  - now intros [= <-].
  - unfold step. rewrite Hc. discriminate.
Qed.

(** The pending entries along emission calls. *)
Lemma emit_run (es : list event) (s s' : System) :
  forallb is_emit es = true ->
  wf (lg s) = true ->
  run s es = Some s' ->
  crashed s' = false ->
  pending (lg s') = pending (lg s) ++ emitted s es /\
  out (lg s') = out (lg s) /\ cache_use (lg s') = cache_use (lg s) /\
  flushes s' = flushes s /\ wf (lg s') = true.
Proof.
  revert s. induction es as [|e es IH]; intros s Hemit Hwf Hrun Hok.
  - injection Hrun as <-. cbn. now rewrite app_nil_r.
  - cbn [forallb] in Hemit. apply andb_true_iff in Hemit as [He Hes].
    destruct e as [|k|clock logType i|]; try discriminate.
    cbn [run] in Hrun. destruct (step s (Emit clock logType i)) as [s1|] eqn:Hstep;
      [|discriminate].
    cbn [mbind option_bind] in Hrun.
    rewrite (emitted_cons _ _ _ _ _ _ Hstep).
    unfold step in Hstep. destruct (crashed s) eqn:Hc; [discriminate|].
    destruct (log (lg s) clock logType i) as [l1|l1| |] eqn:Hlog; try discriminate.
    + injection Hstep as <-.
      destruct (log_frame _ _ _ _ _ (or_introl Hlog))
        as (Ho & _ & _ & Hu & _ & _ & Hw).
      destruct (IH (with_lg l1 s) Hes (Hw Hwf) Hrun Hok) as (Hp & Ho' & Hu' & Hf & Hw').
      cbn [lg with_lg flushes] in *.
      rewrite Hp, (log_returns_pending _ _ _ _ _ Hlog Hwf), <- app_assoc.
      repeat split; congruence.
    + injection Hstep as <-.
      assert (Hcr : crashed s' = true) by (eapply crashed_run; [|exact Hrun]; reflexivity).
      congruence.
Qed.

(** X12.  Along a schedule of emission calls only, in either mode, the
    entries the calls hand on are put behind the pending ones in call
    order: none is lost, doubled or moved.  The sink, the mode, the flush
    goroutines and the fit of the cache header are as before. *)
Theorem emissions_keep_order (es : list event) (s s' : System) :
  forallb is_emit es = true ->
  wf (lg s) = true ->
  run s es = Some s' ->
  crashed s' = false ->
  pending (lg s') = pending (lg s) ++ emitted s es /\
  out (lg s') = out (lg s) /\ cache_use (lg s') = cache_use (lg s) /\
  flushes s' = flushes s /\ wf (lg s') = true.
Proof. exact (@emit_run es s s'). Qed.

Lemma emissions_keep_order_witness :
  exists s',
    run (Start (boot (NewLogger stdout0)))
        [Emit clock0 INFO (PString "A"); Emit clock0 DEBUG (PString "B")] = Some s' /\
    pending (lg s')
    = pending (lg (Start (boot (NewLogger stdout0))))
      ++ emitted (Start (boot (NewLogger stdout0)))
                 [Emit clock0 INFO (PString "A"); Emit clock0 DEBUG (PString "B")] /\
    out (lg s') = out (lg (Start (boot (NewLogger stdout0)))) /\
    cache_use (lg s') = cache_use (lg (Start (boot (NewLogger stdout0)))) /\
    flushes s' = flushes (Start (boot (NewLogger stdout0))) /\
    wf (lg s') = true.
Proof.
  eexists. split; [vm_compute; reflexivity|].
  apply (emissions_keep_order
           [Emit clock0 INFO (PString "A"); Emit clock0 DEBUG (PString "B")]
           (Start (boot (NewLogger stdout0))));
    vm_compute; reflexivity.
Defined.

(** X13.  In cache mode, entries emitted while no flush stands between its
    swap and its write all go out with the next flush run in one piece: one
    write of the pending entries followed by the new ones, in call order,
    after which nothing is pending. *)
Theorem emissions_then_flush (es : list event) (s s' : System) :
  forallb is_emit es = true ->
  wf (lg s) = true ->
  cache_use (lg s) = true ->
  run s es = Some s' ->
  crashed s' = false ->
  pending (lg s) ++ emitted s es <> [] ->
  hd false (faults (out (lg s))) = false ->
  exists l'',
    flush (lg s') = Returns l'' /\
    written (out l'')
    = written (out (lg s)) ++ [(Join (pending (lg s) ++ emitted s es), false)] /\
    pending l'' = [].
Proof.
  intros Hemit Hwf Huse Hrun Hok Hne Hsink.
  destruct (emit_run es s s' Hemit Hwf Hrun Hok)
    as (Hp & Ho & Hu & _ & _).
  rewrite Huse in Hu. rewrite <- Hp in Hne. rewrite <- Ho in Hsink.
  destruct (flush_pending (lg s') Hu Hne Hsink) as (l'' & Hfl & Hw).
  exists l''. split; [exact Hfl|]. split; [now rewrite Hw, Ho, Hp|].
  destruct (flush_exit (lg s')) as (l2 & [H2|H2] & _ & _ & Hd & _ & _ & _ & Hu2 & _);
    rewrite Hfl in H2; [|discriminate].
  injection H2 as ->. unfold pending, elems. rewrite Hu2, Hu, Hd. reflexivity.
Qed.

Lemma emissions_then_flush_witness :
  exists s' l'',
    run (Start (boot (NewLogger stdout0)))
        [Emit clock0 INFO (PString "A"); Emit clock0 ERROR (PStrings ["404-r"])] = Some s' /\
    flush (lg s') = Returns l'' /\
    written (out l'')
    = written (out (lg (Start (boot (NewLogger stdout0)))))
      ++ [(Join (pending (lg (Start (boot (NewLogger stdout0))))
                 ++ emitted (Start (boot (NewLogger stdout0)))
                      [Emit clock0 INFO (PString "A");
                       Emit clock0 ERROR (PStrings ["404-r"])]), false)] /\
    pending l'' = [].
Proof.
  eexists.
  destruct (emissions_then_flush
              [Emit clock0 INFO (PString "A"); Emit clock0 ERROR (PStrings ["404-r"])]
              (Start (boot (NewLogger stdout0))) _
              eq_refl eq_refl eq_refl eq_refl eq_refl)
    as (l'' & H); [vm_compute; discriminate | reflexivity|].
  exists l''. split; [reflexivity | exact H].
Defined.

(** X14.  While the status reads [statusDoing] and no flush goroutine
    moves, every tick is skipped: any number of ticks leaves the whole
    process as it was, so a flush that never ends keeps the buffer from
    ever being flushed again. *)
Theorem stuck_flush_stalls_the_scheduler (s : System) (n : nat) :
  status (lg s) = statusDoing ->
  (0 < schedulers s)%nat ->
  crashed s = false ->
  run s (replicate n Tick) = Some s.
Proof.
  intros Hst Hsch Hok. induction n as [|n IH]; [reflexivity|].
  cbn [replicate run]. unfold step. rewrite Hok.
  replace (0 <? schedulers s)%nat with true by (symmetry; apply Nat.ltb_lt; lia).
  rewrite (tick_skips s Hst). exact IH.
Qed.

Lemma stuck_flush_stalls_the_scheduler_witness :
  exists s,
    run (Start (boot (NewLogger stdout0))) [Tick; FlushStep 0] = Some s /\
    run s (replicate 5 Tick) = Some s.
Proof.
  eexists. split; [reflexivity|].
  apply stuck_flush_stalls_the_scheduler; [reflexivity | vm_compute; lia | reflexivity].
Defined.

(** X15.  Queue mode from start to sink: after [Start] on a logger with
    caching off and a positive queue size that [make] accepts, an accepted
    emission followed by
    one round of the drain worker writes exactly that entry and leaves the
    queue empty.  [Start] has spawned one drain worker and no scheduler, so
    no tick, and with it no flush, can happen. *)
Theorem queue_mode_end_to_end
        (l : Logger) (clock : string) (logType : LogType) (i : payload)
        (format : string) (data : list string) (entry : string) :
  cache_use l = false ->
  0 < queueSize l <= makechan_max ->
  logLevel l <= logType ->
  logFormatFunc l clock logType i = Some (format, data, true) ->
  Sprintf format data = Some entry ->
  hd false (faults (out l)) = false ->
  exists s,
    run (Start (boot l)) [Emit clock logType i; Drain] = Some s /\
    written (out (lg s)) = written (out l) ++ [(entry, false)] /\
    queue (lg s) = Some [] /\ crashed s = false /\
    drainers s = 1%nat /\ schedulers s = 0%nat /\
    step s Tick = None.
Proof.
  intros Huse Hsize Hlv Hf Hs Hok.
  assert (HS : Start (boot l)
               = {| lg := set_queue (Some []) l; drainers := 1; schedulers := 0;
                    flushes := []; crashed := false |}).
  { unfold Start, boot. cbn [lg]. rewrite Huse. cbn [negb].
    replace (queueSize l <? 0) with false by (symmetry; apply Z.ltb_ge; lia).
    now replace (makechan_max <? queueSize l) with false
      by (symmetry; apply Z.ltb_ge; lia). }
  destruct (log_queue_send (set_queue (Some []) l) clock logType i
              format data entry Huse Hlv Hf Hs) as [_ Hpush].
  specialize (Hpush [] eq_refl (proj1 Hsize)). cbn [app] in Hpush.
  rewrite HS.
  set (s0 := {| lg := set_queue (Some []) l; drainers := 1; schedulers := 0;
                flushes := []; crashed := false |}).
  set (l1 := set_queue (Some [entry]) (set_queue (Some []) l)) in *.
  assert (H1 : step s0 (Emit clock logType i) = Some (with_lg l1 s0)).
  { unfold step, s0. cbn [crashed lg]. now rewrite Hpush. }
  assert (H2 : exists l2, step (with_lg l1 s0) Drain = Some (with_lg l2 (with_lg l1 s0)) /\
                          written (out l2) = written (out l) ++ [(entry, false)] /\
                          queue l2 = Some []).
  { unfold step, s0, l1. cbn [crashed with_lg drainers Nat.ltb Nat.leb lg].
    unfold drain, WriteString. cbn [set_queue queue out]. rewrite Hok.
    eexists. split; [reflexivity|]. split; reflexivity. }
  destruct H2 as (l2 & H2 & Hw & Hq).
  exists (with_lg l2 (with_lg l1 s0)).
  cbn [run]. rewrite H1. cbn [mbind option_bind]. rewrite H2.
  cbn [mbind option_bind]. split; [reflexivity|].
  cbn [lg with_lg crashed drainers schedulers]. unfold s0.
  cbn [crashed drainers schedulers]. repeat split; try assumption.
Qed.

Lemma queue_mode_end_to_end_witness :
  exists s,
    run (Start (boot (SetCacheSwitch false (NewLogger stdout0))))
        [Emit clock0 WARN (PString "x"); Drain] = Some s /\
    written (out (lg s))
    = written (out (SetCacheSwitch false (NewLogger stdout0)))
      ++ [(header "43;97" "WARN    " clock0 +:+ "x | " +:+ LF, false)] /\
    queue (lg s) = Some [] /\ crashed s = false /\
    drainers s = 1%nat /\ schedulers s = 0%nat /\
    step s Tick = None.
Proof.
  apply (queue_mode_end_to_end (SetCacheSwitch false (NewLogger stdout0))
           clock0 WARN (PString "x")
           (("[" +:+ ESC +:+ "[") +:+ "43;97" +:+ ("m%s" +:+ ESC +:+ "[0m] %s | %s | " +:+ LF))
           ["WARN    "; clock0; "x"]);
    [reflexivity | vm_compute; split; [reflexivity | discriminate]
    | simpl; unfold WARN, DEBUG; lia
    | reflexivity | reflexivity | reflexivity].
Defined.

(** The three steps of a flush goroutine, taken in a row, are [flush]. *)
Lemma flush_steps_compose (s : System) (l' : Logger) :
  flushes s = [AtEntry] ->
  crashed s = false ->
  hd false (faults (out (lg s))) = false ->
  flush (lg s) = Returns l' ->
  run s [FlushStep 0; FlushStep 0; FlushStep 0]
  = Some (with_flushes [] (with_lg l' s)).
Proof.
  intros Hfs Hok Hsink Hfl. rewrite flush_unfold in Hfl.
  set (s1 := with_flushes [AtLock] (with_lg (flush_enter (lg s)) s)).
  set (s2 := with_flushes [AtWrite (cache_data (lg s))]
               (with_lg (set_cache_data (heap (lg s)) (reslice0 (cache_data (lg s)))
                           (set_status statusDoing (lg s))) s1)).
  assert (H1 : step s (FlushStep 0) = Some s1).
  { unfold step, flush_step. rewrite Hok, Hfs. reflexivity. }
  assert (H2 : step s1 (FlushStep 0) = Some s2).
  { unfold step, flush_step, s1. cbn [crashed with_flushes with_lg flushes].
    rewrite Hok. reflexivity. }
  assert (H3 : step s2 (FlushStep 0) = Some (with_flushes [] (with_lg l' s))).
  { unfold step, flush_step, s2, s1.
    cbn [crashed with_flushes with_lg flushes lg lookup list_lookup].
    rewrite Hok. revert Hfl. unfold flush_write, flush_first, WriteString.
    cbn [out heap set_status set_cache_data]. rewrite Hsink.
    destruct (slen (cache_data (lg s)) =? 0)%nat; now intros [= <-]. }
  cbn [run]. rewrite H1. cbn [mbind option_bind]. rewrite H2.
  cbn [mbind option_bind]. rewrite H3. reflexivity.
Qed.

(** X16.  Cache mode from start to sink: after [Start] with caching on and
    a positive period whose nanoseconds fit an [int64], on a logger with
    nothing pending, an accepted
    emission, a tick and the launched flush run through write that one
    entry in one call, end with [statusDone] and no flush goroutine left.
    [Start] has spawned a scheduler and no drain worker, and the queue is
    still the nil channel. *)
Theorem cache_mode_end_to_end
        (l : Logger) (clock : string) (logType : LogType) (i : payload)
        (format : string) (data : list string) (entry : string) :
  cache_use l = true ->
  0 < cache_duration l <= 9223372036854 ->
  wf l = true -> pending l = [] ->
  status l <> statusDoing ->
  logLevel l <= logType ->
  logFormatFunc l clock logType i = Some (format, data, true) ->
  Sprintf format data = Some entry ->
  hd false (faults (out l)) = false ->
  exists s,
    run (Start (boot l))
        [Emit clock logType i; Tick; FlushStep 0; FlushStep 0; FlushStep 0] = Some s /\
    written (out (lg s)) = written (out l) ++ [(entry, false)] /\
    pending (lg s) = [] /\ status (lg s) = statusDone /\
    flushes s = [] /\ crashed s = false /\
    schedulers s = 1%nat /\ drainers s = 0%nat /\
    queue (lg s) = queue l /\ step s Drain = None.
Proof.
  intros Huse Hdur Hwf Hpend Hst Hlv Hf Hs Hok.
  assert (Hroom : has_room l = true) by (unfold has_room; now rewrite Huse).
  destruct (log_accept l clock logType i _ _ _ Hlv Hf Hs Hwf Hroom)
    as (l1 & Hlog & Hp1 & Ho1 & Hwf1 & Hu1 & _ & _ & Hst1).
  rewrite Hpend in Hp1. cbn [app] in Hp1. rewrite Huse in Hu1.
  assert (Hne : pending l1 <> []) by (rewrite Hp1; discriminate).
  rewrite <- Ho1 in Hok.
  destruct (flush_pending l1 Hu1 Hne Hok) as (l2 & Hfl & Hw).
  destruct (flush_exit l1)
    as (l2' & [H2|H2] & _ & Hs2 & Hd2 & _ & Hq2 & _ & Hu2 & _);
    rewrite Hfl in H2; [|discriminate]. injection H2 as <-.
  assert (HS : Start (boot l)
               = {| lg := l; drainers := 0; schedulers := 1; flushes := [];
                    crashed := false |}).
  { unfold Start, boot. cbn [lg]. rewrite Huse. cbn [negb].
    replace (int64 (Millisecond * cache_duration l))
      with (Millisecond * cache_duration l)
      by (unfold int64, Millisecond;
          rewrite Z.mod_small by lia; lia).
    now replace (Millisecond * cache_duration l <=? 0) with false
      by (symmetry; apply Z.leb_gt; unfold Millisecond; lia). }
  rewrite HS.
  set (s0 := {| lg := l; drainers := 0; schedulers := 1; flushes := [];
                crashed := false |}).
  set (s1 := with_lg l1 s0).
  set (s2 := with_flushes [AtEntry] s1).
  assert (H1 : step s0 (Emit clock logType i) = Some s1).
  { unfold step, s0. cbn [crashed lg]. now rewrite Hlog. }
  assert (H2 : step s1 Tick = Some s2).
  { unfold step, s1, s0. cbn [crashed with_lg schedulers Nat.ltb Nat.leb].
    unfold tick. cbn [lg with_lg flushes]. rewrite Hst1.
    destruct (decide (status l <> statusDoing)) as [_|Hn]; [reflexivity|contradiction]. }
  assert (H3 : run s2 [FlushStep 0; FlushStep 0; FlushStep 0]
               = Some (with_flushes [] (with_lg l2 s2))).
  { apply flush_steps_compose; [reflexivity | reflexivity | exact Hok | exact Hfl]. }
  exists (with_flushes [] (with_lg l2 s2)). split.
  - change [Emit clock logType i; Tick; FlushStep 0; FlushStep 0; FlushStep 0]
      with (Emit clock logType i :: Tick :: [FlushStep 0; FlushStep 0; FlushStep 0]).
    cbn [run]. rewrite H1. cbn [mbind option_bind]. rewrite H2.
    cbn [mbind option_bind]. exact H3.
  - assert (Hq1 : queue l1 = queue l).
    { revert Hlog. unfold log.
      replace (logType <? logLevel l) with false by (symmetry; apply Z.ltb_ge; lia).
      rewrite Hf, Hs, Huse. cbn [negb].
      destruct (append (heap l) (cache_data l) entry) as [h d].
      now intros [= <-]. }
    unfold s2, s1, s0.
    cbn [lg with_lg with_flushes flushes crashed schedulers drainers].
    split; [rewrite Hw, Ho1, Hp1; cbn [Join]; now rewrite app_nil_r_str|].
    split; [unfold pending, elems; now rewrite Hu2, Hu1, Hd2|].
    split; [exact Hs2|].
    split; [reflexivity|]. split; [reflexivity|].
    split; [reflexivity|]. split; [reflexivity|].
    split; [now rewrite Hq2|]. reflexivity.
Qed.

Lemma cache_mode_end_to_end_witness :
  exists s,
    run (Start (boot (NewLogger stdout0)))
        [Emit clock0 INFO (POther "int"); Tick; FlushStep 0; FlushStep 0; FlushStep 0]
    = Some s /\
    written (out (lg s)) = written (out (NewLogger stdout0)) ++ [("", false)] /\
    pending (lg s) = [] /\ status (lg s) = statusDone /\
    flushes s = [] /\ crashed s = false /\
    schedulers s = 1%nat /\ drainers s = 0%nat /\
    queue (lg s) = queue (NewLogger stdout0) /\ step s Drain = None.
Proof.
  apply (cache_mode_end_to_end (NewLogger stdout0) clock0 INFO (POther "int") "" []);
    [reflexivity | simpl; lia | reflexivity | reflexivity | discriminate
    | simpl; unfold INFO, DEBUG; lia | reflexivity | reflexivity | reflexivity].
Defined.

(** X17.  In every schedule, whatever the interleaving of ticks, flush
    steps, emission calls and drain rounds, the live cache header keeps
    fitting its array: its length never exceeds its capacity and the
    capacity is the size of the array it points at. *)
Theorem cache_header_always_fits (es : list event) (s s' : System) :
  wf (lg s) = true ->
  run s es = Some s' ->
  wf (lg s') = true.
Proof.
  revert s. induction es as [|e es IH]; intros s Hwf Hrun.
  - now injection Hrun as <-.
  - cbn [run] in Hrun. destruct (step s e) as [s1|] eqn:Hstep; [|discriminate].
    cbn [mbind option_bind] in Hrun. apply (IH s1); [|exact Hrun].
    unfold step in Hstep. destruct (crashed s); [discriminate|].
    destruct e as [|k|clock logType i|].
    + destruct (0 <? schedulers s)%nat; [|discriminate]. injection Hstep as <-.
      unfold tick. now destruct (decide _).
    + unfold flush_step in Hstep.
      destruct (flushes s !! k) as [[| |cache|cache]|]; [| | | |discriminate].
      * injection Hstep as <-. exact Hwf.
      * injection Hstep as <-. cbn [lg with_lg with_flushes flush_swap snd].
        unfold wf, wf_slice, reslice0 in *. cbn [heap cache_data set_cache_data ptr slen scap].
        destruct (heap (lg s) !! ptr (cache_data (lg s))); [|discriminate].
        apply andb_true_iff in Hwf as [H1 _]. now rewrite H1.
      * unfold flush_first, WriteString in Hstep.
        destruct (slen cache =? 0)%nat; [injection Hstep as <-; exact Hwf|].
        destruct (hd false (faults (out (lg s))));
          injection Hstep as <-; exact Hwf.
      * unfold flush_retry, WriteString in Hstep.
        destruct (hd false (faults (out (lg s))));
          injection Hstep as <-; exact Hwf.
    + destruct (log (lg s) clock logType i) as [l1|l1| |] eqn:Hlog; try discriminate;
        injection Hstep as <-;
        [apply (log_frame _ _ _ _ _ (or_introl Hlog))
        |apply (log_frame _ _ _ _ _ (or_intror Hlog))];
        exact Hwf.
    + destruct (0 <? drainers s)%nat; [|discriminate].
      unfold drain, WriteString in Hstep.
      destruct (queue (lg s)) as [[|msg q]|]; try discriminate.
      cbn [out set_queue] in Hstep.
      destruct (hd false (faults (out (lg s))));
        [cbn [faults hd tl] in Hstep; destruct (hd false _)|];
        injection Hstep as <-; exact Hwf.
Qed.

Lemma cache_header_always_fits_witness :
  exists s',
    run (Start (boot (NewLogger stdout0))) swap_then_emit = Some s' /\
    wf (lg s') = true.
Proof.
  eexists. split; [vm_compute; reflexivity|].
  apply (cache_header_always_fits swap_then_emit (Start (boot (NewLogger stdout0))));
    vm_compute; reflexivity.
Defined.

(** * Further properties of construction and configuration *)

(** X18.  [SetCacheCap] has no effect on the buffer: the header made by
    [NewLogger] stays as it is, and every emission call, flush and drain
    round goes exactly as without the call, the stored number apart.  The
    number is read nowhere after construction. *)
Theorem SetCacheCap_changes_nothing (cap : Z) (l : Logger) :
  cache_data (SetCacheCap cap l) = cache_data l /\
  heap (SetCacheCap cap l) = heap l /\
  (forall clock logType i,
     log (SetCacheCap cap l) clock logType i
     = outcome_map (SetCacheCap cap) (log l clock logType i)) /\
  flush (SetCacheCap cap l) = outcome_map (SetCacheCap cap) (flush l) /\
  drain (SetCacheCap cap l) = outcome_map (SetCacheCap cap) (drain l).
Proof.
  split; [reflexivity|]. split; [reflexivity|]. split; [|split].
  - intros clock logType i. unfold log.
    cbn [SetCacheCap logLevel logFormatFunc cache_use heap cache_data queue queueSize].
    destruct (logType <? logLevel l); [reflexivity|].
    destruct (logFormatFunc l clock logType i) as [[[format data] [|]]|];
      try reflexivity. cbn [negb].
    destruct (Sprintf format data) as [entry|]; [|reflexivity].
    destruct (cache_use l).
    + destruct (append (heap l) (cache_data l) entry) as [h d]. reflexivity.
    + destruct (queue l) as [q|]; [|reflexivity].
      destruct (Z.of_nat (length q) <? queueSize l); reflexivity.
  - rewrite !flush_unfold. unfold flush_write, WriteString.
    cbn [SetCacheCap set_status set_cache_data out heap cache_data].
    destruct (slen (cache_data l) =? 0)%nat; [reflexivity|].
    destruct (hd false (faults (out l))); [|reflexivity].
    cbn [faults hd tl]. destruct (hd false (tl (faults (out l)))); reflexivity.
  - unfold drain, WriteString. cbn [SetCacheCap queue].
    destruct (queue l) as [[|msg q]|]; try reflexivity.
    cbn [set_queue out SetCacheCap].
    destruct (hd false (faults (out l))); [|reflexivity].
    cbn [faults hd tl]. destruct (hd false (tl (faults (out l)))); reflexivity.
Qed.

Lemma log_keeps_queue_in_cache_mode
      (l l' : Logger) (clock : string) (logType : LogType) (i : payload) :
  cache_use l = true ->
  log l clock logType i = Returns l' ->
  queue l' = queue l.
Proof.
  intros Huse. unfold log. rewrite Huse.
  destruct (logType <? logLevel l); [now intros [= <-]|].
  destruct (logFormatFunc l clock logType i) as [[[format data] [|]]|];
    cbn [negb]; try discriminate; [|now intros [= <-]].
  destruct (Sprintf format data) as [entry|]; [|discriminate].
  destruct (append (heap l) (cache_data l) entry) as [h d].
  now intros [= <-].
Qed.

(** X19.  A logger fresh from [NewLogger] is in cache mode with the
    threshold at [DEBUG]: on any sink, each of the seven levels with any
    payload is accepted, the entry is the only one pending, and the sink
    has not been touched.  The status is still the zero value, which is
    none of the three named states, and the queue is the nil channel. *)
Theorem new_logger_accepts_every_level
        (w : Writer) (clock ts : string) (logType : LogType) (i : payload) :
  0 <= logType <= 6 ->
  formatTime clock = Some ts ->
  exists format data entry l',
    DefaultLogFormatFunc clock logType i = Some (format, data, true) /\
    Sprintf format data = Some entry /\
    log (NewLogger w) clock logType i = Returns l' /\
    pending l' = [entry] /\ out l' = w /\
    status l' = 0 /\ status l' <> statusInit /\ status l' <> statusDoing /\
    status l' <> statusDone /\ queue l' = None.
Proof.
  intros Ht Hts.
  destruct (DefaultLogFormatFunc_total clock ts logType i Ht Hts)
    as (format & data & entry & Hd & Hs & _).
  assert (Hlv : logLevel (NewLogger w) <= logType) by (cbn; unfold DEBUG; lia).
  destruct (log_accept (NewLogger w) clock logType i format data entry
              Hlv Hd Hs eq_refl eq_refl)
    as (l' & Hlog & Hp & Ho & _ & _ & _ & _ & Hst).
  exists format, data, entry, l'.
  split; [exact Hd|]. split; [exact Hs|]. split; [exact Hlog|].
  split; [exact Hp|]. split; [exact Ho|]. split; [exact Hst|].
  change (status (NewLogger w)) with 0 in Hst. rewrite Hst.
  split; [discriminate|]. split; [discriminate|]. split; [discriminate|].
  exact (log_keeps_queue_in_cache_mode (NewLogger w) _ _ _ _ eq_refl Hlog).
Qed.

Lemma new_logger_accepts_every_level_witness :
  exists format data entry l',
    DefaultLogFormatFunc clock0 FATAL (PStrings ["500-r"; "down"])
    = Some (format, data, true) /\
    Sprintf format data = Some entry /\
    log (NewLogger stdout0) clock0 FATAL (PStrings ["500-r"; "down"]) = Returns l' /\
    pending l' = [entry] /\ out l' = stdout0 /\
    status l' = 0 /\ status l' <> statusInit /\ status l' <> statusDoing /\
    status l' <> statusDone /\ queue l' = None.
Proof.
  apply (new_logger_accepts_every_level stdout0 clock0 clock0 FATAL
           (PStrings ["500-r"; "down"]));
    [unfold FATAL; lia | reflexivity].
Defined.
